(** * hack/cvo-unmanage.py: marking a Deployment as unmanaged in the ClusterVersion

    The script fetches the [ClusterVersion] document with [oc get], scans
    [spec.overrides] for an entry with the requested name and namespace,
    flips or appends an override, and pipes the document to [oc apply] when
    it changed something.

    The development has three layers:
    - the JSON value tree that [json.loads] returns, and a Python object
      store in which dicts and lists are mutable cells reached by reference;
    - the script itself, written in a state-and-exception monad over that
      store, statement by statement;
    - an ownership relation between store and trees, used to read the result
      of the in-place mutations back as a document. *)

From Stdlib Require Import ZArith String.
From Stdlib Require Import Floats.SpecFloat.
From stdpp Require Import gmap strings list.

#[local] Set Warnings "-clear-no-such-hyp".

Local Open Scope string_scope.
Local Open Scope list_scope.

(** ** JSON values *)

(** What [json.loads] produces: [None], [bool], [int], [float], [str],
    [list], and [dict] with [str] keys.  A dict keeps its keys in insertion
    order, so its members are an association list. *)
#[local] Unset Elimination Schemes.
Inductive json : Type :=
  | JNull
  | JBool (b : bool)
  | JInt (z : Z)
  | JFloat (f : spec_float)
  | JStr (s : string)
  | JArr (elems : list json)
  | JObj (members : list (string * json)).
#[local] Set Elimination Schemes.

(** ** Dicts as insertion-ordered association lists *)

(** [d.get(k)]: the value stored under [k], if any. *)
Fixpoint dict_get {A : Type} (items : list (string * A)) (k : string) : option A :=
  match items with
  | [] => None
  | (k', v) :: rest => if String.eqb k' k then Some v else dict_get rest k
  end.

(** [d[k] = v]: an existing key keeps its position, a new key goes last. *)
Fixpoint dict_set {A : Type} (items : list (string * A)) (k : string) (v : A)
  : list (string * A) :=
  match items with
  | [] => [(k, v)]
  | (k', v') :: rest =>
      if String.eqb k' k then (k, v) :: rest else (k', v') :: dict_set rest k v
  end.

(** ** The Python object store *)

Module Py.

Definition loc := nat.

(** Immutable values are held directly, dicts and lists by reference. *)
Inductive val : Type :=
  | VNone
  | VBool (b : bool)
  | VInt (z : Z)
  | VFloat (f : spec_float)
  | VStr (s : string)
  | VRef (l : loc).

Inductive obj : Type :=
  | ODict (items : list (string * val))
  | OList (items : list val).

(** Objects are never freed; a fresh object takes the next index. *)
Abbreviation heap := (list obj).

Inductive exn : Type :=
  | AttributeError
  | TypeError
  | ValueError
  | SystemError.

(** State over the store, with exceptions. *)
Definition M (A : Type) : Type := heap -> exn + (A * heap).

Definition ret {A} (a : A) : M A := fun h => inr (a, h).

Definition bind {A B} (c : M A) (k : A -> M B) : M B :=
  fun h => match c h with
           | inl e => inl e
           | inr (a, h') => k a h'
           end.

Definition raise {A} (e : exn) : M A := fun _ => inl e.

Definition alloc (o : obj) : M val :=
  fun h => inr (VRef (length h), h ++ [o]).

(** A reference outside the store cannot arise in Python; the model
    reports it as [SystemError]. *)
Definition deref (l : loc) : M obj :=
  fun h => match h !! l with
           | Some o => inr (o, h)
           | None => inl SystemError
           end.

Definition store (l : loc) (o : obj) : M unit :=
  fun h => inr (tt, <[l := o]> h).

End Py.

Import Py.

Declare Scope py_scope.
Delimit Scope py_scope with py.
Notation "x <- c ;; k" := (bind c (fun x => k))
  (at level 100, c at next level, right associativity) : py_scope.
Notation "c ;;; k" := (bind c (fun _ => k))
  (at level 100, right associativity) : py_scope.
Local Open Scope py_scope.

(** ** Built-in operations used by the script *)

(** [v.get(k)]: only dicts have the method; a missing key gives [None]. *)
Definition py_get (v : val) (k : string) : M val :=
  match v with
  | VRef l =>
      o <- deref l ;;
      match o with
      | ODict items => ret (default VNone (dict_get items k))
      | OList _ => raise AttributeError
      end
  | _ => raise AttributeError
  end.

(** [v.setdefault(k, d)]: the method is looked up first, then the argument
    [d] is evaluated, then the key is looked up and inserted if missing. *)
Definition py_setdefault (v : val) (k : string) (d : M val) : M val :=
  match v with
  | VRef l =>
      o <- deref l ;;
      match o with
      | ODict _ =>
          dv <- d ;;
          o' <- deref l ;;
          match o' with
          | ODict items =>
              match dict_get items k with
              | Some x => ret x
              | None => store l (ODict (items ++ [(k, dv)])) ;;; ret dv
              end
          | OList _ => raise SystemError
          end
      | OList _ => raise AttributeError
      end
  | _ => raise AttributeError
  end.

(** [v.append(x)]: only lists have the method. *)
Definition py_append (v : val) (x : M val) : M unit :=
  match v with
  | VRef l =>
      o <- deref l ;;
      match o with
      | OList _ =>
          xv <- x ;;
          o' <- deref l ;;
          match o' with
          | OList items => store l (OList (items ++ [xv]))
          | ODict _ => raise SystemError
          end
      | ODict _ => raise AttributeError
      end
  | _ => raise AttributeError
  end.

(** [v[k] = x] with a [str] key [k]. *)
Definition py_setitem (v : val) (k : string) (x : val) : M unit :=
  match v with
  | VRef l =>
      o <- deref l ;;
      match o with
      | ODict items => store l (ODict (dict_set items k x))
      | OList _ => raise TypeError
      end
  | _ => raise TypeError
  end.

Definition float_is_zero (f : spec_float) : bool :=
  match f with
  | S754_zero _ => true
  | _ => false
  end.

Definition nonempty {A} (l : list A) : bool :=
  match l with
  | [] => false
  | _ :: _ => true
  end.

(** Truth value of an object, as [not v] computes it. *)
Definition py_truthy (v : val) : M bool :=
  match v with
  | VNone => ret false
  | VBool b => ret b
  | VInt z => ret (negb (Z.eqb z 0))
  | VFloat f => ret (negb (float_is_zero f))
  | VStr s => ret (negb (String.eqb s ""))
  | VRef l =>
      o <- deref l ;;
      match o with
      | ODict items => ret (nonempty items)
      | OList items => ret (nonempty items)
      end
  end.

(** [v == s] for a [str] [s]: true only for an equal [str]. *)
Definition py_eq_str (v : val) (s : string) : bool :=
  match v with
  | VStr s' => String.eqb s' s
  | _ => false
  end.

Fixpoint chars (s : string) : list string :=
  match s with
  | EmptyString => []
  | String c s' => String c EmptyString :: chars s'
  end.

(** The elements a [for] statement visits: the items of a list, the keys of
    a dict, the characters of a [str]; nothing else is iterable.  The
    elements are read once: the loop body of the script never changes the
    object it iterates over. *)
Definition py_iter (v : val) : M (list val) :=
  match v with
  | VRef l =>
      o <- deref l ;;
      match o with
      | OList items => ret items
      | ODict items => ret (VStr <$> items.*1)
      end
  | VStr s => ret (VStr <$> chars s)
  | _ => raise TypeError
  end.

(** ** [json.loads] and [json.dumps] *)

(** Building the objects of a value tree in the store, children first. *)
Fixpoint load (t : json) : M val :=
  match t with
  | JNull => ret VNone
  | JBool b => ret (VBool b)
  | JInt z => ret (VInt z)
  | JFloat f => ret (VFloat f)
  | JStr s => ret (VStr s)
  | JArr elems =>
      vs <- (fix load_elems (ts : list json) : M (list val) :=
               match ts with
               | [] => ret []
               | t :: ts' => v <- load t ;; vs <- load_elems ts' ;; ret (v :: vs)
               end) elems ;;
      alloc (OList vs)
  | JObj members =>
      items <- (fix load_members (kts : list (string * json))
                  : M (list (string * val)) :=
                  match kts with
                  | [] => ret []
                  | (k, t) :: kts' =>
                      v <- load t ;; items <- load_members kts' ;; ret ((k, v) :: items)
                  end) members ;;
      alloc (ODict items)
  end.

(** The two inner loops of [load], under names of their own. *)
Definition load_elems : list json -> M (list val) :=
  fix load_elems (ts : list json) : M (list val) :=
    match ts with
    | [] => ret []
    | t :: ts' => v <- load t ;; vs <- load_elems ts' ;; ret (v :: vs)
    end.

Definition load_members : list (string * json) -> M (list (string * val)) :=
  fix load_members (kts : list (string * json)) : M (list (string * val)) :=
    match kts with
    | [] => ret []
    | (k, t) :: kts' =>
        v <- load t ;; items <- load_members kts' ;; ret ((k, v) :: items)
    end.

(** Reading a value tree back.  [fuel] bounds the nesting depth. *)
Fixpoint dump (fuel : nat) (h : heap) (v : val) : option json :=
  match v with
  | VNone => Some JNull
  | VBool b => Some (JBool b)
  | VInt z => Some (JInt z)
  | VFloat f => Some (JFloat f)
  | VStr s => Some (JStr s)
  | VRef l =>
      match fuel with
      | O => None
      | S fuel' =>
          match h !! l with
          | Some (OList items) =>
              JArr <$> mapM (dump fuel' h) items
          | Some (ODict items) =>
              JObj <$> mapM (fun kv => pair kv.1 <$> dump fuel' h kv.2) items
          | None => None
          end
      end
  end.

(** [json.dumps(v)]: a nesting deeper than the number of objects in the
    store has met some object twice, which [json.dumps] rejects with
    [ValueError] (circular reference). *)
Definition py_dumps (v : val) : M json :=
  fun h => match dump (length h) h v with
           | Some t => inr (t, h)
           | None => inl ValueError
           end.

(** ** The script *)

Section Script.

(** [sys.argv[1]] and [sys.argv[2]]. *)
Variables namespace name : string.

Definition new_override : obj :=
  ODict [("group", VStr "apps/v1");
         ("kind", VStr "Deployment");
         ("name", VStr name);
         ("namespace", VStr namespace);
         ("unmanaged", VBool true)].

(** The condition of line 19; [and] evaluates its right operand only
    when the left one holds. *)
Definition matches_target (override : val) : M bool :=
  n <- py_get override "name" ;;
  if py_eq_str n name
  then ns <- py_get override "namespace" ;;
       ret (py_eq_str ns namespace)
  else ret false.

(** The [for override in overrides: ... else: ...] statement, over the
    elements still to visit.  The result is the final [modified]; it
    starts [False] and no path sets it back. *)
Fixpoint for_override (overrides : val) (pending : list val) : M bool :=
  match pending with
  | [] =>
      py_append overrides (alloc new_override) ;;;
      ret true
  | override :: pending' =>
      matched <- matches_target override ;;
      if (matched : bool) then
        u <- py_get override "unmanaged" ;;
        t <- py_truthy u ;;
        if negb t
        then py_setitem override "unmanaged" (VBool true) ;;; ret true
        else ret false
      else for_override overrides pending'
  end.

(** Lines 17 to 32: [modified = False], then the [for] statement over the
    elements of [overrides]. *)
Definition merge_loop (overrides : val) : M bool :=
  pending <- py_iter overrides ;;
  for_override overrides pending.

(** The two subprocess invocations the script can make. *)
Inductive call : Type :=
  | OcGet
  | OcApply (input : json).

(** What a completed run leaves: the variable [clusterversion], the
    variable [modified], and the subprocess calls made, in order. *)
Record outcome : Type := Outcome {
  clusterversion : val;
  modified : bool;
  calls : list call
}.

(** The whole script, from the parsed standard output of [oc get]. *)
Definition script (stdout : json) : M outcome :=
  clusterversion <- load stdout ;;
  spec <- py_setdefault clusterversion "spec" (alloc (ODict [])) ;;
  overrides <- py_setdefault spec "overrides" (alloc (OList [])) ;;
  modified <- merge_loop overrides ;;
  if (modified : bool) then
    input <- py_dumps clusterversion ;;
    ret (Outcome clusterversion modified [OcGet; OcApply input])
  else
    ret (Outcome clusterversion modified [OcGet]).

End Script.

(** Running the script in an empty store. *)
Definition main (namespace name : string) (stdout : json) : exn + (outcome * heap) :=
  script namespace name stdout [].

(** The document held by [clusterversion] when the script ends. *)
Definition document (r : outcome * heap) : option json :=
  dump (length r.2) r.2 (clusterversion r.1).

(** The merge step on its own (the [for]/[else] statement): the override
    sequence is built in an empty store, the loop runs on it, and the
    sequence is read back together with [modified]. *)
Definition merge (overrides : list json) (namespace name : string)
  : exn + (list json * bool) :=
  match (ovs <- load (JArr overrides) ;;
         modified <- merge_loop namespace name ovs ;;
         t <- py_dumps ovs ;;
         ret (t, modified)) [] with
  | inl e => inl e
  | inr ((JArr overrides', modified), _) => inr (overrides', modified)
  | inr _ => inl SystemError
  end.

(** The test of line 19 on its own, for one entry built in an empty store. *)
Definition entry_matches (override : json) (namespace name : string)
  : exn + bool :=
  match (v <- load override ;; matches_target namespace name v) [] with
  | inl e => inl e
  | inr (b, _) => inr b
  end.

(** * Reading the store as trees *)

(** ** Induction on value trees *)

Section json_induction.
Variable P : json -> Prop.
Hypothesis Hnull : P JNull.
Hypothesis Hbool : forall b, P (JBool b).
Hypothesis Hint : forall z, P (JInt z).
Hypothesis Hfloat : forall f, P (JFloat f).
Hypothesis Hstr : forall s, P (JStr s).
Hypothesis Harr : forall elems, Forall P elems -> P (JArr elems).
Hypothesis Hobj :
  forall members, Forall (fun kt => P kt.2) members -> P (JObj members).

Fixpoint json_ind (t : json) : P t :=
  match t with
  | JNull => Hnull
  | JBool b => Hbool b
  | JInt z => Hint z
  | JFloat f => Hfloat f
  | JStr s => Hstr s
  | JArr elems =>
      Harr elems
        ((fix all (ts : list json) : Forall P ts :=
            match ts with
            | [] => @List.Forall_nil _ P
            | t :: ts' => @List.Forall_cons _ P t ts' (json_ind t) (all ts')
            end) elems)
  | JObj members =>
      Hobj members
        ((fix all (kts : list (string * json)) : Forall (fun kt => P kt.2) kts :=
            match kts with
            | [] => @List.Forall_nil _ (fun kt => P kt.2)
            | kt :: kts' =>
                @List.Forall_cons _ (fun kt => P kt.2) kt kts' (json_ind kt.2) (all kts')
            end) members)
  end.
End json_induction.

(** ** Ownership *)

(** [own h F v t]: in store [h], the value [v] stands for the tree [t], and
    the objects it is made of are exactly those at the locations [F], each
    used once.  This is what [json.loads] establishes (no object is shared)
    and what lets an update of one object be read as an update of one
    subtree. *)
Inductive own (h : heap) : gset loc -> val -> json -> Prop :=
  | own_none : own h ∅ VNone JNull
  | own_bool b : own h ∅ (VBool b) (JBool b)
  | own_int z : own h ∅ (VInt z) (JInt z)
  | own_float f : own h ∅ (VFloat f) (JFloat f)
  | own_str s : own h ∅ (VStr s) (JStr s)
  | own_list l vs ts F :
      h !! l = Some (OList vs) ->
      l ∉ F ->
      owns h F vs ts ->
      own h ({[l]} ∪ F) (VRef l) (JArr ts)
  | own_dict l items kts F :
      h !! l = Some (ODict items) ->
      l ∉ F ->
      items.*1 = kts.*1 ->
      owns h F items.*2 kts.*2 ->
      own h ({[l]} ∪ F) (VRef l) (JObj kts)
with owns (h : heap) : gset loc -> list val -> list json -> Prop :=
  | owns_nil : owns h ∅ [] []
  | owns_cons F1 F2 v t vs ts :
      own h F1 v t ->
      owns h F2 vs ts ->
      F1 ## F2 ->
      owns h (F1 ∪ F2) (v :: vs) (t :: ts).

Scheme own_mut := Minimality for own Sort Prop
  with owns_mut := Minimality for owns Sort Prop.
Combined Scheme own_owns_ind from own_mut, owns_mut.

Lemma own_owns_frame h :
  (forall F v t, own h F v t ->
     forall h', (forall l, l ∈ F -> h' !! l = h !! l) -> own h' F v t) /\
  (forall F vs ts, owns h F vs ts ->
     forall h', (forall l, l ∈ F -> h' !! l = h !! l) -> owns h' F vs ts).
Proof.
  apply own_owns_ind.
  1-5: by constructor.
  - intros l vs ts F Hl Hnin _ IH h' Hsame.
    apply own_list with vs; [| done | apply IH; set_solver].
    rewrite Hsame; [done | set_solver].
  - intros l items kts F Hl Hnin Hkeys _ IH h' Hsame.
    apply own_dict with items; [| done | done | apply IH; set_solver].
    rewrite Hsame; [done | set_solver].
  - by constructor.
  - intros F1 F2 v t vs ts _ IH1 _ IH2 Hdisj h' Hsame.
    constructor; [apply IH1; set_solver | apply IH2; set_solver | done].
Qed.

Lemma own_frame h h' F v t :
  own h F v t -> (forall l, l ∈ F -> h' !! l = h !! l) -> own h' F v t.
Proof. intros Ho Hf. by eapply (proj1 (own_owns_frame h)). Qed.

Lemma owns_frame h h' F vs ts :
  owns h F vs ts -> (forall l, l ∈ F -> h' !! l = h !! l) -> owns h' F vs ts.
Proof. intros Ho Hf. by eapply (proj2 (own_owns_frame h)). Qed.

Lemma own_owns_bound h :
  (forall F v t, own h F v t -> forall l, l ∈ F -> l < length h) /\
  (forall F vs ts, owns h F vs ts -> forall l, l ∈ F -> l < length h).
Proof.
  apply own_owns_ind.
  1-5: intros; set_solver.
  - intros l vs ts F Hl _ _ IH x [->%elem_of_singleton | Hx]%elem_of_union;
      [by eapply lookup_lt_Some | by apply IH].
  - intros l items kts F Hl _ _ _ IH x [->%elem_of_singleton | Hx]%elem_of_union;
      [by eapply lookup_lt_Some | by apply IH].
  - intros; set_solver.
  - intros F1 F2 v t vs ts _ IH1 _ IH2 _ x [Hx | Hx]%elem_of_union; auto.
Qed.

Lemma own_bound h F v t l : own h F v t -> l ∈ F -> l < length h.
Proof. intros Ho. by apply (proj1 (own_owns_bound h) F v t). Qed.

Lemma owns_bound h F vs ts l : owns h F vs ts -> l ∈ F -> l < length h.
Proof. intros Ho. by apply (proj2 (own_owns_bound h) F vs ts). Qed.

(** ** Owned values are read back by [dump] *)

Lemma Forall2_members {A B} (R : A -> B -> Prop)
    (items : list (string * A)) (kts : list (string * B)) :
  items.*1 = kts.*1 ->
  Forall2 R items.*2 kts.*2 ->
  Forall2 (fun kv kt => kv.1 = kt.1 /\ R kv.2 kt.2) items kts.
Proof.
  revert kts. induction items as [| [k v] items IH]; intros [| [k' t] kts]; simpl;
    intros Hk Hv; try done; try (by constructor).
  inversion Hk; subst. inversion Hv; subst. constructor; auto.
Qed.

Lemma own_owns_dump h :
  (forall F v t, own h F v t ->
     forall fuel, size F <= fuel -> dump fuel h v = Some t) /\
  (forall F vs ts, owns h F vs ts ->
     forall fuel, size F <= fuel ->
     Forall2 (fun v t => dump fuel h v = Some t) vs ts).
Proof.
  apply own_owns_ind.
  1-5: by intros; destruct fuel.
  - intros l vs ts F Hl Hnin _ IH fuel Hfuel.
    rewrite size_union, size_singleton in Hfuel by set_solver.
    destruct fuel as [| fuel]; [lia |]. simpl. rewrite Hl.
    assert (size F <= fuel) as Hle by (clear -Hfuel; lia).
    by rewrite (proj2 (mapM_Some _ _ _) (IH fuel Hle)).
  - intros l items kts F Hl Hnin Hkeys _ IH fuel Hfuel.
    rewrite size_union, size_singleton in Hfuel by set_solver.
    destruct fuel as [| fuel]; [lia |]. simpl. rewrite Hl.
    assert (mapM (fun kv => pair kv.1 <$> dump fuel h kv.2) items = Some kts) as ->;
      [| done].
    apply mapM_Some.
    assert (size F <= fuel) as Hle by (clear -Hfuel; lia).
    eapply Forall2_impl; [by apply Forall2_members, IH |].
    intros [k v] [k' t] [Hk Hd]; simpl in *. by rewrite Hd, Hk.
  - constructor.
  - intros F1 F2 v t vs ts _ IH1 _ IH2 Hdisj fuel Hfuel.
    rewrite size_union in Hfuel by done.
    constructor; [apply IH1 | apply IH2]; clear -Hfuel; lia.
Qed.

Lemma own_dump h F v t : own h F v t -> dump (length h) h v = Some t.
Proof.
  intros Ho. apply (proj1 (own_owns_dump h) F v t Ho).
  assert (F ⊆ set_seq 0 (length h)) as Hsub.
  { intros l Hl. apply elem_of_set_seq. split; [lia |]. simpl.
    by eapply own_bound. }
  apply subseteq_size in Hsub. by rewrite size_set_seq in Hsub.
Qed.

Lemma own_py_dumps h F v t : own h F v t -> py_dumps v h = inr (t, h).
Proof. intros Ho. unfold py_dumps. by rewrite (own_dump _ _ _ _ Ho). Qed.

(** ** [load] builds an owned value out of fresh objects *)

Lemma lookup_snoc_new (h : heap) (o : obj) : (h ++ [o]) !! length h = Some o.
Proof. by apply list_lookup_middle. Qed.

Lemma lookup_snoc_old (h : heap) (o : obj) (l : loc) :
  l < length h -> (h ++ [o]) !! l = h !! l.
Proof. intros Hl. by apply lookup_app_l. Qed.

Lemma own_grow h cells F v t : own h F v t -> own (h ++ cells) F v t.
Proof.
  intros Ho. eapply own_frame; [done |].
  intros l Hl. apply lookup_app_l. by eapply own_bound.
Qed.

Lemma owns_grow h cells F vs ts : owns h F vs ts -> owns (h ++ cells) F vs ts.
Proof.
  intros Ho. eapply owns_frame; [done |].
  intros l Hl. apply lookup_app_l. by eapply owns_bound.
Qed.

(** [t] loads in any store, using only new locations. *)
Definition loads (t : json) : Prop :=
  forall h, exists v cells F,
    load t h = inr (v, h ++ cells) /\
    own (h ++ cells) F v t /\
    (forall l, l ∈ F -> length h <= l).

Lemma load_elems_owns ts :
  Forall loads ts ->
  forall h, exists vs cells F,
    load_elems ts h = inr (vs, h ++ cells) /\
    owns (h ++ cells) F vs ts /\
    (forall l, l ∈ F -> length h <= l).
Proof.
  induction 1 as [| t ts Ht _ IH]; intros h.
  - exists [], [], ∅. rewrite app_nil_r. repeat split; [constructor | set_solver].
  - destruct (Ht h) as (v & c1 & F1 & Hv & Hown & Hlo).
    destruct (IH (h ++ c1)) as (vs & c2 & F2 & Hvs & Howns & Hlos).
    exists (v :: vs), (c1 ++ c2), (F1 ∪ F2).
    rewrite app_assoc. split; [| split].
    + simpl. unfold bind at 1. rewrite Hv. unfold bind at 1.
      fold load_elems. by rewrite Hvs.
    + constructor; [by apply own_grow | done |].
      intros l Hl1 Hl2. apply (own_bound _ _ _ _ _ Hown) in Hl1.
      apply Hlos in Hl2. lia.
    + intros l [Hl | Hl]%elem_of_union; [by apply Hlo |].
      apply Hlos in Hl. rewrite length_app in Hl. lia.
Qed.

Lemma load_members_owns kts :
  Forall (fun kt => loads kt.2) kts ->
  forall h, exists items cells F,
    load_members kts h = inr (items, h ++ cells) /\
    items.*1 = kts.*1 /\
    owns (h ++ cells) F items.*2 kts.*2 /\
    (forall l, l ∈ F -> length h <= l).
Proof.
  induction 1 as [| [k t] kts Ht _ IH]; intros h.
  - exists [], [], ∅. rewrite app_nil_r. repeat split; [constructor | set_solver].
  - destruct (Ht h) as (v & c1 & F1 & Hv & Hown & Hlo).
    destruct (IH (h ++ c1)) as (items & c2 & F2 & Hvs & Hkeys & Howns & Hlos).
    exists ((k, v) :: items), (c1 ++ c2), (F1 ∪ F2).
    rewrite app_assoc. split; [| split; [| split]].
    + simpl. unfold bind at 1. simpl in Hv. rewrite Hv. unfold bind at 1.
      fold load_members. by rewrite Hvs.
    + simpl. by f_equal.
    + simpl. constructor; [by apply own_grow | done |].
      intros l Hl1 Hl2. apply (own_bound _ _ _ _ _ Hown) in Hl1.
      apply Hlos in Hl2. lia.
    + intros l [Hl | Hl]%elem_of_union; [by apply Hlo |].
      apply Hlos in Hl. rewrite length_app in Hl. lia.
Qed.

Lemma load_own t : loads t.
Proof.
  induction t as [| b | z | f | s | ts IH | kts IH] using json_ind; intros h.
  1-5: eexists _, [], ∅; rewrite app_nil_r;
       (split; [reflexivity | split; [constructor | set_solver]]).
  - destruct (load_elems_owns ts IH h) as (vs & cells & F & Hvs & Howns & Hlo).
    exists (VRef (length (h ++ cells))), (cells ++ [OList vs]),
      ({[length (h ++ cells)]} ∪ F).
    rewrite app_assoc. split; [| split].
    + change (load (JArr ts)) with (vs <- load_elems ts ;; alloc (OList vs)).
      unfold bind. by rewrite Hvs.
    + apply own_list with vs;
        [apply lookup_snoc_new | | by apply owns_grow].
      intros Hin. apply (owns_bound _ _ _ _ _ Howns) in Hin. lia.
    + intros l [->%elem_of_singleton | Hl]%elem_of_union; [| by apply Hlo].
      rewrite length_app. lia.
  - destruct (load_members_owns kts IH h)
      as (items & cells & F & Hvs & Hkeys & Howns & Hlo).
    exists (VRef (length (h ++ cells))), (cells ++ [ODict items]),
      ({[length (h ++ cells)]} ∪ F).
    rewrite app_assoc. split; [| split].
    + change (load (JObj kts))
        with (items <- load_members kts ;; alloc (ODict items)).
      unfold bind. by rewrite Hvs.
    + apply own_dict with items;
        [apply lookup_snoc_new | | done | by apply owns_grow].
      intros Hin. apply (owns_bound _ _ _ _ _ Howns) in Hin. lia.
    + intros l [->%elem_of_singleton | Hl]%elem_of_union; [| by apply Hlo].
      rewrite length_app. lia.
Qed.

(** ** Keys and positions in a dict *)

Fixpoint key_index (ks : list string) (k : string) : option nat :=
  match ks with
  | [] => None
  | k' :: ks' => if String.eqb k' k then Some 0 else S <$> key_index ks' k
  end.

Lemma dict_get_key_index {A} (items : list (string * A)) k :
  dict_get items k = key_index items.*1 k ≫= fun i => items.*2 !! i.
Proof.
  induction items as [| [k' v] items IH]; csimpl; [done |].
  destruct (String.eqb k' k); [done |].
  rewrite IH. by destruct (key_index items.*1 k).
Qed.

Lemma dict_set_present {A} (items : list (string * A)) k x i :
  key_index items.*1 k = Some i ->
  (dict_set items k x).*1 = items.*1 /\
  (dict_set items k x).*2 = <[i := x]> items.*2.
Proof.
  revert i. induction items as [| [k' v] items IH]; csimpl; intros i Hi; [done |].
  destruct (String.eqb k' k) eqn:Hk.
  - apply String.eqb_eq in Hk as ->. by inversion Hi.
  - destruct (key_index items.*1 k) as [j |]; [| done].
    inversion Hi; subst. destruct (IH j eq_refl) as [H1 H2].
    csimpl. by rewrite H1, H2.
Qed.

Lemma dict_set_absent {A} (items : list (string * A)) k x :
  key_index items.*1 k = None -> dict_set items k x = items ++ [(k, x)].
Proof.
  induction items as [| [k' v] items IH]; csimpl; intros Hi; [done |].
  destruct (String.eqb k' k); [done |].
  destruct (key_index items.*1 k); [done |]. by rewrite IH.
Qed.

Lemma dict_set_same {A} (items : list (string * A)) k v :
  dict_get items k = Some v -> dict_set items k v = items.
Proof.
  induction items as [| [k' v'] items IH]; csimpl; [done |].
  destruct (String.eqb k' k) eqn:Hk.
  - apply String.eqb_eq in Hk as ->. by intros [= ->].
  - intros Hg. by rewrite IH.
Qed.

Lemma dict_get_set {A} (items : list (string * A)) k x :
  dict_get (dict_set items k x) k = Some x.
Proof.
  induction items as [| [k' v'] items IH]; csimpl.
  - by rewrite String.eqb_refl.
  - destruct (String.eqb k' k) eqn:Hk; csimpl; [by rewrite String.eqb_refl |].
    by rewrite Hk.
Qed.

Lemma dict_get_set_ne {A} (items : list (string * A)) k k' x :
  k <> k' -> dict_get (dict_set items k x) k' = dict_get items k'.
Proof.
  intros Hne. induction items as [| [k0 v0] items IH]; csimpl.
  - by apply String.eqb_neq in Hne as ->.
  - destruct (String.eqb k0 k) eqn:Hk; csimpl.
    + apply String.eqb_eq in Hk as ->. by apply String.eqb_neq in Hne as ->.
    + by rewrite IH.
Qed.

(** ** Replacing one owned component *)

Lemma owns_length h F vs ts : owns h F vs ts -> length vs = length ts.
Proof. induction 1; csimpl; auto. Qed.

Lemma owns_focus h F vs ts i v :
  owns h F vs ts ->
  vs !! i = Some v ->
  exists t Fv Fr,
    ts !! i = Some t /\ own h Fv v t /\ F = Fv ∪ Fr /\ Fv ## Fr /\
    forall h' Fv' v' t',
      own h' Fv' v' t' ->
      Fv' ## Fr ->
      (forall x, x ∈ Fr -> h' !! x = h !! x) ->
      owns h' (Fv' ∪ Fr) (<[i := v']> vs) (<[i := t']> ts).
Proof.
  intros Ho. revert i.
  induction Ho as [| F1 F2 v0 t0 vs ts Hown Howns IH Hdisj]; intros i Hi; [done |].
  destruct i as [| i]; csimpl in Hi.
  - inversion Hi; subst. exists t0, F1, F2. repeat split; try done.
    intros h' Fv' v' t' Hown' Hdisj' Hsame. csimpl.
    constructor; [done | by eapply owns_frame | done].
  - destruct (IH i Hi) as (t & Fv & Fr & Ht & Hv & -> & Hd & Hk).
    exists t, Fv, (F1 ∪ Fr). repeat split; try done; [set_solver | set_solver |].
    intros h' Fv' v' t' Hown' Hdisj' Hsame. csimpl.
    replace (Fv' ∪ (F1 ∪ Fr)) with (F1 ∪ (Fv' ∪ Fr)) by set_solver.
    constructor; [| | set_solver].
    + eapply own_frame; [done |]. intros x Hx. apply Hsame. set_solver.
    + apply Hk; [done | set_solver |]. intros x Hx. apply Hsame. set_solver.
Qed.

Lemma owns_snoc h F Fv vs ts v t :
  owns h F vs ts -> own h Fv v t -> Fv ## F ->
  owns h (F ∪ Fv) (vs ++ [v]) (ts ++ [t]).
Proof.
  induction 1 as [| F1 F2 v0 t0 vs ts Hown Howns IH Hdisj]; intros Hv Hd; csimpl.
  - replace (∅ ∪ Fv) with (Fv ∪ ∅) by set_solver.
    constructor; [done | constructor | set_solver].
  - replace (F1 ∪ F2 ∪ Fv) with (F1 ∪ (F2 ∪ Fv)) by set_solver.
    constructor; [done | apply IH; [done | set_solver] | set_solver].
Qed.

Lemma key_index_lt ks k i : key_index ks k = Some i -> i < length ks.
Proof.
  revert i. induction ks as [| k' ks IH]; csimpl; intros i Hi; [done |].
  destruct (String.eqb k' k); [inversion Hi; lia |].
  destruct (key_index ks k) as [j |]; [| done].
  inversion Hi; subst. specialize (IH j eq_refl). lia.
Qed.

Lemma own_dict_inv h F v kts :
  own h F v (JObj kts) ->
  exists l items Fc,
    v = VRef l /\ h !! l = Some (ODict items) /\ F = {[l]} ∪ Fc /\ (l ∉ Fc) /\
    items.*1 = kts.*1 /\ owns h Fc items.*2 kts.*2.
Proof. inversion 1; subst. by eexists _, _, _. Qed.

Lemma own_list_inv h F v ts :
  own h F v (JArr ts) ->
  exists l vs Fc,
    v = VRef l /\ h !! l = Some (OList vs) /\ F = {[l]} ∪ Fc /\ (l ∉ Fc) /\
    owns h Fc vs ts.
Proof. inversion 1; subst. by eexists _, _, _. Qed.

(** The component of an owned dict under key [k] ([None] when the key is
    missing), the rest of the dict, and how the dict reads once that
    component has been replaced or added. *)
Lemma own_dict_focus h F v kts k :
  own h F v (JObj kts) ->
  exists l items Fv Fr,
    v = VRef l /\ h !! l = Some (ODict items) /\
    F = {[l]} ∪ (Fv ∪ Fr) /\ (l ∉ Fv) /\ (l ∉ Fr) /\ Fv ## Fr /\
    own h Fv (default VNone (dict_get items k)) (default JNull (dict_get kts k)) /\
    (dict_get items k = None <-> dict_get kts k = None) /\
    forall h' Fv' v' t',
      own h' Fv' v' t' ->
      Fv' ## Fr ->
      l ∉ Fv' ->
      (forall x, x ∈ Fr -> h' !! x = h !! x) ->
      h' !! l = Some (ODict (dict_set items k v')) ->
      own h' ({[l]} ∪ (Fv' ∪ Fr)) (VRef l) (JObj (dict_set kts k t')).
Proof.
  intros (l & items & Fc & -> & Hl & -> & Hnin & Hkeys & Howns)%own_dict_inv.
  destruct (key_index items.*1 k) as [i |] eqn:Hi.
  - assert (is_Some (items.*2 !! i)) as [v Hv].
    { apply lookup_lt_is_Some. apply key_index_lt in Hi.
      rewrite length_fmap in Hi. by rewrite length_fmap. }
    destruct (owns_focus _ _ _ _ _ _ Howns Hv)
      as (t & Fv & Fr & Ht & Hown & -> & Hd & Hk).
    exists l, items, Fv, Fr.
    rewrite !dict_get_key_index, <- Hkeys, Hi. csimpl. rewrite Hv, Ht. csimpl.
    repeat split; try done; [clear -Hnin; set_solver | clear -Hnin; set_solver |].
    intros h' Fv' v' t' Hown' Hd' Hnin' Hsame Hl'.
    destruct (dict_set_present items k v' i Hi) as [Hk1 Hk2].
    destruct (dict_set_present kts k t' i) as [Hk3 Hk4]; [by rewrite <- Hkeys |].
    eapply own_dict; [done | set_solver | congruence |].
    rewrite Hk2, Hk4. by apply Hk.
  - exists l, items, ∅, Fc.
    rewrite !dict_get_key_index, <- Hkeys, Hi. csimpl.
    repeat split; try done; [set_solver | constructor |].
    intros h' Fv' v' t' Hown' Hd' Hnin' Hsame Hl'.
    rewrite (dict_set_absent kts k t') by (by rewrite <- Hkeys).
    rewrite (dict_set_absent items k v' Hi) in Hl'.
    eapply own_dict; [done | set_solver | by rewrite !fmap_app, Hkeys |].
    rewrite !fmap_app. csimpl.
    replace (Fv' ∪ Fc) with (Fc ∪ Fv') by set_solver.
    apply owns_snoc; [by eapply owns_frame | done | done].
Qed.

(** ** Tests on trees that mirror the tests on values *)

Definition json_eq_str (t : json) (s : string) : bool :=
  match t with
  | JStr s' => String.eqb s' s
  | _ => false
  end.

Definition json_truthy (t : json) : bool :=
  match t with
  | JNull => false
  | JBool b => b
  | JInt z => negb (Z.eqb z 0)
  | JFloat f => negb (float_is_zero f)
  | JStr s => negb (String.eqb s "")
  | JArr elems => nonempty elems
  | JObj members => nonempty members
  end.

Lemma own_eq_str h F v t s : own h F v t -> py_eq_str v s = json_eq_str t s.
Proof. by inversion 1. Qed.

Lemma own_truthy h F v t : own h F v t -> py_truthy v h = inr (json_truthy t, h).
Proof.
  inversion 1 as [| | | | | l vs ts F' Hl _ Howns | l items kts F' Hl _ Hkeys _];
    subst; try done; unfold py_truthy, bind, deref; rewrite Hl; simpl; unfold ret.
  - apply owns_length in Howns. by destruct vs, ts.
  - by destruct items, kts.
Qed.

(** ** The operations on objects of known shape *)

Lemma bind_inr {A B} (c : M A) (k : A -> M B) h a h' :
  c h = inr (a, h') -> bind c k h = k a h'.
Proof. unfold bind. by intros ->. Qed.

Lemma py_get_dict h l items k :
  h !! l = Some (ODict items) ->
  py_get (VRef l) k h = inr (default VNone (dict_get items k), h).
Proof. intros Hl. unfold py_get, bind, deref. by rewrite Hl. Qed.

Lemma py_setitem_dict h l items k x :
  h !! l = Some (ODict items) ->
  py_setitem (VRef l) k x h = inr (tt, <[l := ODict (dict_set items k x)]> h).
Proof. intros Hl. unfold py_setitem, bind, deref. by rewrite Hl. Qed.

Lemma py_iter_list h l vs :
  h !! l = Some (OList vs) -> py_iter (VRef l) h = inr (vs, h).
Proof. intros Hl. unfold py_iter, bind, deref. by rewrite Hl. Qed.

Lemma py_append_list h l vs o :
  h !! l = Some (OList vs) ->
  py_append (VRef l) (alloc o) h
  = inr (tt, <[l := OList (vs ++ [VRef (length h)])]> (h ++ [o])).
Proof.
  intros Hl. unfold py_append, bind, deref, alloc. rewrite Hl.
  rewrite lookup_snoc_old, Hl by (by eapply lookup_lt_Some). done.
Qed.

Lemma py_setdefault_dict h l items k o :
  h !! l = Some (ODict items) ->
  py_setdefault (VRef l) k (alloc o) h
  = match dict_get items k with
    | Some x => inr (x, h ++ [o])
    | None =>
        inr (VRef (length h),
             <[l := ODict (items ++ [(k, VRef (length h))])]> (h ++ [o]))
    end.
Proof.
  intros Hl. unfold py_setdefault, bind, deref, alloc. rewrite Hl.
  rewrite lookup_snoc_old, Hl by (by eapply lookup_lt_Some).
  by destruct (dict_get items k).
Qed.

(** * The merge step as a function on trees *)

Section Tree.

Variables namespace name : string.

Definition new_override_json : json :=
  JObj [("group", JStr "apps/v1");
        ("kind", JStr "Deployment");
        ("name", JStr name);
        ("namespace", JStr namespace);
        ("unmanaged", JBool true)].

(** [d.get(k)] on a tree. *)
Definition field (members : list (string * json)) (k : string) : json :=
  default JNull (dict_get members k).

(** The test of line 19 on a tree. *)
Definition matches (members : list (string * json)) : bool :=
  json_eq_str (field members "name") name
  && json_eq_str (field members "namespace") namespace.

(** What the loop of [for_override] does, read on the trees: the result
    sequence and [modified].  [merge_loop_tree] below proves that the
    loop in the store computes this. *)
Fixpoint merge_tree (overrides : list json) : exn + (list json * bool) :=
  match overrides with
  | [] => inr ([new_override_json], true)
  | JObj members :: rest =>
      if matches members then
        if json_truthy (field members "unmanaged")
        then inr (overrides, false)
        else inr (JObj (dict_set members "unmanaged" (JBool true)) :: rest, true)
      else
        match merge_tree rest with
        | inr (rest', modified) => inr (JObj members :: rest', modified)
        | inl e => inl e
        end
  | _ :: _ => inl AttributeError
  end.

End Tree.

(** * The loop in the store computes [merge_tree] *)

Section Loop.

Variables namespace name : string.

Lemma own_field h F l items kts k :
  own h F (VRef l) (JObj kts) ->
  h !! l = Some (ODict items) ->
  exists Fv, own h Fv (default VNone (dict_get items k)) (field kts k).
Proof.
  intros Ho Hl.
  destruct (own_dict_focus _ _ _ _ k Ho)
    as (l' & items' & Fv & Fr & [= <-] & Hl' & _ & _ & _ & _ & Hf & _).
  rewrite Hl in Hl'. injection Hl' as <-. by exists Fv.
Qed.

Lemma matches_target_own h F l kts :
  own h F (VRef l) (JObj kts) ->
  matches_target namespace name (VRef l) h
  = inr (matches namespace name kts, h).
Proof.
  intros Ho.
  destruct (own_dict_inv _ _ _ _ Ho) as (l' & items & Fc & [= <-] & Hl & _).
  destruct (own_field _ _ _ _ _ "name" Ho Hl) as [F1 H1].
  destruct (own_field _ _ _ _ _ "namespace" Ho Hl) as [F2 H2].
  unfold matches_target, matches.
  rewrite (bind_inr _ _ _ _ _ (py_get_dict _ _ _ "name" Hl)).
  rewrite (own_eq_str _ _ _ _ name H1).
  destruct (json_eq_str (field kts "name") name); [| done].
  rewrite (bind_inr _ _ _ _ _ (py_get_dict _ _ _ "namespace" Hl)).
  unfold ret. by rewrite (own_eq_str _ _ _ _ namespace H2).
Qed.

Lemma owns_cons_scalar h F v t vs ts :
  own h ∅ v t -> owns h F vs ts -> owns h F (v :: vs) (t :: ts).
Proof.
  intros Hv Hvs. replace F with (∅ ∪ F) by set_solver.
  constructor; [done | done | set_solver].
Qed.

Lemma own_new_override h n :
  h !! n = Some (new_override namespace name) ->
  own h {[n]} (VRef n) (new_override_json namespace name).
Proof.
  intros Hn. replace ({[n]} : gset loc) with ({[n]} ∪ ∅ : gset loc) by set_solver.
  eapply own_dict; [done | set_solver | done |].
  repeat (apply owns_cons_scalar; [constructor |]). constructor.
Qed.

Lemma lookup_insert_snoc_old (h : heap) lo o o' x :
  x < length h -> x <> lo -> (<[lo := o']> (h ++ [o])) !! x = h !! x.
Proof.
  intros Hx Hne. rewrite list_lookup_insert_ne by done. by apply lookup_snoc_old.
Qed.

Lemma insert_middle {A} (l1 l2 : list A) x y :
  <[length l1 := y]> (l1 ++ x :: l2) = l1 ++ y :: l2.
Proof. induction l1 as [| z l1 IH]; simpl; [done | by rewrite IH]. Qed.

Lemma for_override_nil overrides :
  for_override namespace name overrides []
  = (py_append overrides (alloc (new_override namespace name)) ;;; ret true).
Proof. reflexivity. Qed.

Lemma for_override_cons overrides override pending :
  for_override namespace name overrides (override :: pending)
  = (matched <- matches_target namespace name override ;;
     if (matched : bool) then
       u <- py_get override "unmanaged" ;;
       t <- py_truthy u ;;
       if negb t
       then py_setitem override "unmanaged" (VBool true) ;;; ret true
       else ret false
     else for_override namespace name overrides pending).
Proof. reflexivity. Qed.

(** The state the loop works in: [lo] is the list being scanned, whose
    elements are owned with footprint [F]; [done_vs] has been visited. *)
Lemma for_override_ok pend_ts :
  forall pend_ts' m,
    merge_tree namespace name pend_ts = inr (pend_ts', m) ->
  forall h lo done_vs pend_vs done_ts F,
    h !! lo = Some (OList (done_vs ++ pend_vs)) ->
    owns h F (done_vs ++ pend_vs) (done_ts ++ pend_ts) ->
    length done_vs = length done_ts ->
    lo ∉ F ->
    exists h' F' vs',
      for_override namespace name (VRef lo) pend_vs h = inr (m, h') /\
      h' !! lo = Some (OList vs') /\
      owns h' F' vs' (done_ts ++ pend_ts') /\
      (lo ∉ F') /\
      length h <= length h' /\
      (forall x, x ∈ F' -> x ∈ F \/ length h <= x) /\
      (forall x, x < length h -> x ∉ F -> x <> lo -> h' !! x = h !! x).
Proof.
  induction pend_ts as [| t rest IH];
    intros pend_ts' m Hm h lo done_vs pend_vs done_ts F Hlo Howns Hlen Hnin.
  - assert (pend_vs = []) as ->.
    { apply owns_length in Howns. rewrite !length_app in Howns.
      destruct pend_vs; [done |]. simpl in Howns. clear -Howns Hlen. lia. }
    simpl in Hm. injection Hm as <- <-.
    rewrite app_nil_r in Hlo. rewrite !app_nil_r in Howns.
    assert (lo < length h) as Hlt by (by eapply lookup_lt_Some).
    rewrite for_override_nil, (bind_inr _ _ _ _ _ (py_append_list _ _ _ _ Hlo)).
    eexists _, (F ∪ {[length h]}), _. split; [reflexivity |].
    split; [apply list_lookup_insert_eq; rewrite length_app; simpl; lia |].
    split; [| split; [| split; [| split]]].
    + apply owns_snoc.
      * eapply owns_frame; [done |]. intros x Hx.
        apply lookup_insert_snoc_old; [by eapply owns_bound | set_solver].
      * apply own_new_override.
        rewrite list_lookup_insert_ne by lia. apply lookup_snoc_new.
      * intros x ->%elem_of_singleton Hx.
        apply (owns_bound _ _ _ _ _ Howns) in Hx. lia.
    + intros [Hx | ->%elem_of_singleton]%elem_of_union; [done | lia].
    + rewrite length_insert, length_app. simpl. lia.
    + intros x [Hx | ->%elem_of_singleton]%elem_of_union; [by left | by right].
    + intros x Hx _ Hne. by apply lookup_insert_snoc_old.
  - destruct pend_vs as [| v pend_vs].
    { apply owns_length in Howns. rewrite !length_app in Howns.
      simpl in Howns. clear -Howns Hlen. lia. }
    assert (lo < length h) as Hlt by (by eapply lookup_lt_Some).
    assert ((done_vs ++ v :: pend_vs) !! length done_vs = Some v) as Hv
      by apply list_lookup_middle, eq_refl.
    destruct (owns_focus _ _ _ _ _ _ Howns Hv)
      as (t0 & Fv & Fr & Ht0 & Hown & -> & Hd & Hk).
    rewrite Hlen, list_lookup_middle in Ht0 by done. injection Ht0 as <-.
    destruct t as [| | | | | | members]; simpl in Hm; try discriminate.
    destruct (own_dict_inv _ _ _ _ Hown)
      as (l & items & Fc & -> & Hl & HFv & HlFc & Hkeys & Hitems).
    rewrite for_override_cons,
      (bind_inr _ _ _ _ _ (matches_target_own _ _ _ _ Hown)).
    destruct (matches namespace name members) eqn:Hmatch.
    + destruct (own_field _ _ _ _ _ "unmanaged" Hown Hl) as [Fu Hu].
      rewrite (bind_inr _ _ _ _ _ (py_get_dict _ _ _ "unmanaged" Hl)).
      rewrite (bind_inr _ _ _ _ _ (own_truthy _ _ _ _ Hu)).
      destruct (json_truthy (field members "unmanaged")) eqn:Htruthy;
        simpl; injection Hm as <- <-.
      * exists h, (Fv ∪ Fr), (done_vs ++ VRef l :: pend_vs).
        unfold ret. repeat split; auto.
      * rewrite (bind_inr _ _ _ _ _
                   (py_setitem_dict _ _ _ "unmanaged" (VBool true) Hl)).
        destruct (own_dict_focus _ _ _ _ "unmanaged" Hown)
          as (l' & items' & Fu' & Fr' & [= <-] & Hl' & HFv' & Hn1 & Hn2 & Hd'
              & _ & _ & Hk').
        rewrite Hl in Hl'. injection Hl' as <-.
        set (h' := <[l := ODict (dict_set items "unmanaged" (VBool true))]> h).
        assert (l < length h) as Hllt by (by eapply lookup_lt_Some).
        assert (own h' ({[l]} ∪ (∅ ∪ Fr')) (VRef l)
                  (JObj (dict_set members "unmanaged" (JBool true)))) as Hown'.
        { apply (Hk' h' ∅ (VBool true) (JBool true));
            [constructor | set_solver | set_solver | |].
          - intros x Hx. apply list_lookup_insert_ne. set_solver.
          - by apply list_lookup_insert_eq. }
        assert (lo <> l) as Hne by set_solver.
        exists h', ({[l]} ∪ (∅ ∪ Fr') ∪ Fr), (done_vs ++ VRef l :: pend_vs).
        split; [reflexivity |].
        split; [by unfold h'; rewrite list_lookup_insert_ne |].
        split; [| split; [| split; [| split]]].
        -- specialize (Hk h' _ (VRef l) _ Hown').
           rewrite list_insert_id in Hk by done.
           rewrite Hlen, insert_middle in Hk.
           apply Hk; [set_solver |].
           intros x Hx. apply list_lookup_insert_ne. set_solver.
        -- set_solver.
        -- unfold h'. by rewrite length_insert.
        -- intros x Hx. left. set_solver.
        -- intros x _ Hx _. apply list_lookup_insert_ne. set_solver.
    + destruct (merge_tree namespace name rest) as [e | [rest' m']] eqn:Hrest;
        [done |].
      injection Hm as <- <-.
      destruct (IH rest' m' eq_refl h lo (done_vs ++ [VRef l]) pend_vs
                  (done_ts ++ [JObj members]) (Fv ∪ Fr))
        as (h' & F' & vs' & Hrun & Hlo' & Howns' & Hrest');
        [by rewrite <- app_assoc | by rewrite <- !app_assoc
         | rewrite !length_app; simpl; lia | done |].
      exists h', F', vs'. rewrite <- app_assoc in Howns'. done.
Qed.

End Loop.

(** [merge_loop] on an owned list. *)
Lemma merge_loop_tree namespace name h F v ovs ovs' m :
  own h F v (JArr ovs) ->
  merge_tree namespace name ovs = inr (ovs', m) ->
  exists h' F',
    merge_loop namespace name v h = inr (m, h') /\
    own h' F' v (JArr ovs') /\
    length h <= length h' /\
    (forall x, x ∈ F' -> x ∈ F \/ length h <= x) /\
    (forall x, x < length h -> x ∉ F -> h' !! x = h !! x).
Proof.
  intros (lo & vs & Fc & -> & Hlo & -> & Hnin & Howns)%own_list_inv Hm.
  destruct (for_override_ok namespace name ovs ovs' m Hm h lo [] vs [] Fc)
    as (h' & F' & vs' & Hrun & Hlo' & Howns' & Hnin' & Hlen & Hnew & Hsame);
    [done | done | done | done |].
  exists h', ({[lo]} ∪ F'). split; [| split; [| split; [| split]]].
  - unfold merge_loop. by rewrite (bind_inr _ _ _ _ _ (py_iter_list _ _ _ Hlo)).
  - by eapply own_list.
  - done.
  - intros x [->%elem_of_singleton | Hx]%elem_of_union; [left; set_solver |].
    destruct (Hnew x Hx); [left; set_solver | by right].
  - intros x Hx Hxn. apply Hsame; [done | set_solver | set_solver].
Qed.

(** The merge step computes [merge_tree]. *)
Lemma merge_refines namespace name ovs r :
  merge_tree namespace name ovs = inr r -> merge ovs namespace name = inr r.
Proof.
  destruct r as [ovs' m]. intros Hm.
  destruct (load_own (JArr ovs) []) as (v & cells & F & Hload & Hown & _).
  simpl in Hload, Hown.
  destruct (merge_loop_tree _ _ _ _ _ _ _ _ Hown Hm)
    as (h' & F' & Hrun & Hown' & _).
  unfold merge.
  rewrite (bind_inr _ _ _ _ _ Hload), (bind_inr _ _ _ _ _ Hrun),
    (bind_inr _ _ _ _ _ (own_py_dumps _ _ _ _ Hown')).
  done.
Qed.

(** An element that is not a dict stops the loop with [AttributeError]. *)
Lemma matches_target_not_dict namespace name h F v t :
  own h F v t ->
  (forall members, t <> JObj members) ->
  matches_target namespace name v h = inl AttributeError.
Proof.
  intros Ho Hne. unfold matches_target, bind.
  inversion Ho as [| | | | | l vs ts F' Hl _ _ | l items kts F' Hl _ _ _];
    subst; try done.
  - unfold py_get, bind, deref. by rewrite Hl.
  - by destruct (Hne kts).
Qed.

Lemma for_override_err namespace name pend_ts :
  forall e,
    merge_tree namespace name pend_ts = inl e ->
  forall h lo done_vs pend_vs done_ts F,
    owns h F (done_vs ++ pend_vs) (done_ts ++ pend_ts) ->
    length done_vs = length done_ts ->
    for_override namespace name (VRef lo) pend_vs h = inl e.
Proof.
  induction pend_ts as [| t rest IH];
    intros e He h lo done_vs pend_vs done_ts F Howns Hlen; [done |].
  destruct pend_vs as [| v pend_vs].
  { apply owns_length in Howns. rewrite !length_app in Howns.
    simpl in Howns. clear -Howns Hlen. lia. }
  assert ((done_vs ++ v :: pend_vs) !! length done_vs = Some v) as Hv
    by apply list_lookup_middle, eq_refl.
  destruct (owns_focus _ _ _ _ _ _ Howns Hv)
    as (t0 & Fv & Fr & Ht0 & Hown & -> & Hd & Hk).
  rewrite Hlen, list_lookup_middle in Ht0 by done. injection Ht0 as <-.
  rewrite for_override_cons.
  destruct t as [| b | z | f | s | elems | members]; simpl in He;
    try (injection He as <-; unfold bind at 1;
         by rewrite (matches_target_not_dict _ _ _ _ _ _ Hown)).
  destruct (own_dict_inv _ _ _ _ Hown) as (l & items & Fc & -> & _).
  rewrite (bind_inr _ _ _ _ _ (matches_target_own _ _ _ _ _ _ Hown)).
  destruct (matches namespace name members).
  - by destruct (json_truthy (field members "unmanaged")).
  - destruct (merge_tree namespace name rest) as [e' | [rest' m']] eqn:Hrest;
      [| done].
    injection He as <-.
    apply (IH e' eq_refl h lo (done_vs ++ [VRef l]) pend_vs
             (done_ts ++ [JObj members]) (Fv ∪ Fr)).
    + by rewrite <- !app_assoc.
    + rewrite !length_app; simpl; lia.
Qed.

Lemma merge_loop_err namespace name h F v ovs e :
  own h F v (JArr ovs) ->
  merge_tree namespace name ovs = inl e ->
  merge_loop namespace name v h = inl e.
Proof.
  intros (lo & vs & Fc & -> & Hlo & _ & _ & Howns)%own_list_inv Hm.
  unfold merge_loop.
  rewrite (bind_inr _ _ _ _ _ (py_iter_list _ _ _ Hlo)).
  by apply (for_override_err _ _ _ e Hm h lo [] vs [] Fc Howns eq_refl).
Qed.

(** The merge step is [merge_tree], errors included. *)
Lemma merge_eq ovs namespace name :
  merge ovs namespace name = merge_tree namespace name ovs.
Proof.
  destruct (merge_tree namespace name ovs) as [e | r] eqn:Hm;
    [| by apply merge_refines].
  destruct (load_own (JArr ovs) []) as (v & cells & F & Hload & Hown & _).
  simpl in Hload, Hown.
  unfold merge. rewrite (bind_inr _ _ _ _ _ Hload).
  unfold bind at 1. by rewrite (merge_loop_err _ _ _ _ _ _ _ Hown Hm).
Qed.

(** * The whole script *)

Lemma dict_set_missing {A} (items : list (string * A)) k x :
  dict_get items k = None -> dict_set items k x = items ++ [(k, x)].
Proof.
  induction items as [| [k' v] items IH]; simpl; intros Hg; [done |].
  destruct (String.eqb k' k); [done |]. by rewrite IH.
Qed.

(** [v.setdefault(k, d)] on an owned dict [v], where [d] allocates an
    empty container whose tree is [td]: the result [c] owns the component
    under [k], and the dict reads back with whatever [c] later becomes. *)
Lemma py_setdefault_own h F v kts k o td :
  own h F v (JObj kts) ->
  (forall h1 n, h1 !! n = Some o -> own h1 {[n]} (VRef n) td) ->
  exists h1 c l Fv Fr,
    py_setdefault v k (alloc o) h = inr (c, h1) /\
    v = VRef l /\
    own h1 Fv c (default td (dict_get kts k)) /\
    length h1 = S (length h) /\
    l < length h /\ l ∈ F /\ (l ∉ Fv) /\ (l ∉ Fr) /\ Fv ## Fr /\
    (forall x, x ∈ Fv -> x ∈ F \/ x = length h) /\
    (forall x, x ∈ Fr -> x ∈ F) /\
    (forall x, x < length h -> x <> l -> h1 !! x = h !! x) /\
    forall h' Fv' t',
      own h' Fv' c t' ->
      Fv' ## Fr ->
      l ∉ Fv' ->
      (forall x, x ∈ Fr -> h' !! x = h1 !! x) ->
      h' !! l = h1 !! l ->
      own h' ({[l]} ∪ (Fv' ∪ Fr)) (VRef l) (JObj (dict_set kts k t')).
Proof.
  intros Ho Hd.
  destruct (own_dict_focus _ _ _ _ k Ho)
    as (l & items & Fv & Fr & -> & Hl & HF & Hn1 & Hn2 & Hdisj & Hc & Hnone & Hk).
  assert (l < length h) as Hlt by (by eapply lookup_lt_Some).
  assert (forall x, x ∈ Fr -> x < length h) as HFr.
  { intros x Hx. apply (own_bound _ _ _ _ _ Ho). clear -HF Hx. set_solver. }
  assert (l ∈ F) as HlF by (clear -HF; set_solver).
  assert (forall x, x ∈ Fv -> x ∈ F) as HFvF by (clear -HF; set_solver).
  assert (forall x, x ∈ Fr -> x ∈ F) as HFrF by (clear -HF; set_solver).
  rewrite (py_setdefault_dict _ _ _ _ _ Hl).
  destruct (dict_get items k) as [c |] eqn:Hget.
  - destruct (dict_get kts k) as [t |] eqn:Hgett;
      [| by pose proof (proj2 Hnone eq_refl)].
    simpl in Hc |- *.
    exists (h ++ [o]), c, l, Fv, Fr.
    split; [done |]. split; [done |]. split; [by apply own_grow |].
    split; [rewrite length_app; simpl; lia |].
    split; [done |]. split; [done |]. split; [done |].
    split; [done |]. split; [done |].
    split; [intros x Hx; left; by apply HFvF |].
    split; [done |].
    split; [intros x Hx _; by apply lookup_snoc_old |].
    intros h' Fv' t' Hown' Hd' Hn' Hsame Hl'.
    apply (Hk h' Fv' c t'); [done | done | done | |].
    + intros x Hx. rewrite Hsame by done. apply lookup_snoc_old. by apply HFr.
    + rewrite Hl', lookup_snoc_old, Hl by done. by rewrite dict_set_same.
  - rewrite (proj1 Hnone eq_refl). simpl.
    set (n := length h).
    set (h1 := <[l := ODict (items ++ [(k, VRef n)])]> (h ++ [o])).
    assert (h1 !! l = Some (ODict (items ++ [(k, VRef n)]))) as Hl1.
    { apply list_lookup_insert_eq. rewrite length_app. simpl. lia. }
    exists h1, (VRef n), l, {[n]}, Fr.
    split; [done |]. split; [done |].
    split.
    { apply Hd. unfold h1. rewrite list_lookup_insert_ne by (unfold n; lia).
      apply lookup_snoc_new. }
    split; [unfold h1; rewrite length_insert, length_app; simpl; lia |].
    split; [done |]. split; [done |].
    split; [apply not_elem_of_singleton; unfold n; lia |].
    split; [done |].
    split.
    { intros x ->%elem_of_singleton Hx. apply HFr in Hx. unfold n in Hx. lia. }
    split; [intros x ->%elem_of_singleton; by right |].
    split; [done |].
    split; [intros x Hx Hne; by apply lookup_insert_snoc_old |].
    intros h' Fv' t' Hown' Hd' Hn' Hsame Hl'.
    apply (Hk h' Fv' (VRef n) t'); [done | done | done | |].
    + intros x Hx. rewrite Hsame by done.
      apply lookup_insert_snoc_old; [by apply HFr |].
      intros ->. by apply Hn2.
    + by rewrite Hl', Hl1, (dict_set_missing _ _ _ Hget).
Qed.

Lemma own_empty_dict h n : h !! n = Some (ODict []) -> own h {[n]} (VRef n) (JObj []).
Proof.
  intros Hn. replace ({[n]} : gset loc) with ({[n]} ∪ ∅ : gset loc) by set_solver.
  eapply own_dict; [done | set_solver | done | constructor].
Qed.

Lemma own_empty_list h n : h !! n = Some (OList []) -> own h {[n]} (VRef n) (JArr []).
Proof.
  intros Hn. replace ({[n]} : gset loc) with ({[n]} ∪ ∅ : gset loc) by set_solver.
  eapply own_list; [done | set_solver | constructor].
Qed.

(** The document after the script: [spec.overrides] replaced, everything
    else where it was. *)
Definition updated_document (top sp : list (string * json)) (ovs' : list json)
  : json :=
  JObj (dict_set top "spec" (JObj (dict_set sp "overrides" (JArr ovs')))).

Lemma script_run namespace name top sp ovs ovs' m h0 :
  default (JObj []) (dict_get top "spec") = JObj sp ->
  default (JArr []) (dict_get sp "overrides") = JArr ovs ->
  merge_tree namespace name ovs = inr (ovs', m) ->
  exists h' v F,
    script namespace name (JObj top) h0
    = inr (Outcome v m
             (if m then [OcGet; OcApply (updated_document top sp ovs')]
              else [OcGet]), h') /\
    own h' F v (updated_document top sp ovs').
Proof.
  intros Hspec Hovs Hm.
  destruct (load_own (JObj top) h0) as (v & cells & F & Hload & Hown & _).
  set (h := h0 ++ cells) in *.
  destruct (py_setdefault_own h F v top "spec" (ODict []) (JObj []) Hown own_empty_dict)
    as (h1 & c1 & l1 & Fv1 & Fr1 & Hsd1 & -> & Hc1 & Hlen1 & Hl1lt & Hl1F & Hn11
        & Hn12 & Hdisj1 & HFv1 & HFr1 & Hsame1 & Hk1).
  rewrite Hspec in Hc1.
  destruct (py_setdefault_own h1 Fv1 c1 sp "overrides" (OList []) (JArr []) Hc1
              own_empty_list)
    as (h2 & c2 & l2 & Fv2 & Fr2 & Hsd2 & -> & Hc2 & Hlen2 & Hl2lt & Hl2F & Hn21
        & Hn22 & Hdisj2 & HFv2 & HFr2 & Hsame2 & Hk2).
  rewrite Hovs in Hc2.
  destruct (merge_loop_tree _ _ _ _ _ _ _ _ Hc2 Hm)
    as (h3 & F3 & Hrun & Hown3 & Hlen3 & Hnew3 & Hsame3).
  pose proof (fun x => own_bound _ _ _ _ x Hown) as B0.
  pose proof (fun x => own_bound _ _ _ _ x Hc1) as B1.
  assert (forall x, x ∈ Fr2 -> x < length h1) as BFr2 by (intros x Hx; auto).
  assert (forall x, x ∈ Fr1 -> x < length h) as BFr1.
  { intros x Hx. eapply own_bound; [exact Hown | auto]. }
  assert (forall x, x ∈ Fr1 -> x ∉ Fv2) as Hsep.
  { intros x Hx Hx2. destruct (HFv2 x Hx2) as [Hin | ->].
    - by apply (Hdisj1 x).
    - apply BFr1 in Hx. lia. }
  assert (own h3 ({[l2]} ∪ (F3 ∪ Fr2)) (VRef l2)
            (JObj (dict_set sp "overrides" (JArr ovs')))) as Hspec3.
  { apply Hk2; [done | | | |].
    - intros x Hx3 Hx2. destruct (Hnew3 x Hx3) as [Hin | Hge].
      + by apply (Hdisj2 x).
      + apply BFr2 in Hx2. lia.
    - intros Hin. destruct (Hnew3 l2 Hin) as [Hin' | Hge]; [done | lia].
    - intros x Hx. apply Hsame3; [apply BFr2 in Hx; lia |].
      intros Hx2. by apply (Hdisj2 x).
    - apply Hsame3; [lia | done]. }
  assert (own h3 ({[l1]} ∪ ({[l2]} ∪ (F3 ∪ Fr2) ∪ Fr1)) (VRef l1)
            (updated_document top sp ovs')) as Hdoc3.
  { apply Hk1; [done | | | |].
    - intros x Hx Hx1. pose proof (BFr1 x Hx1) as Hlt.
      apply elem_of_union in Hx as [->%elem_of_singleton | Hx];
        [by apply (Hdisj1 l2) |].
      apply elem_of_union in Hx as [Hx | Hx].
      + destruct (Hnew3 x Hx) as [Hin | Hge]; [by apply (Hsep x) | lia].
      + apply (Hdisj1 x); auto.
    - intros Hx.
      apply elem_of_union in Hx as [->%elem_of_singleton | Hx]; [done |].
      apply elem_of_union in Hx as [Hx | Hx]; [| by apply Hn11, HFr2].
      destruct (Hnew3 l1 Hx) as [Hin | Hge]; [| lia].
      destruct (HFv2 l1 Hin) as [Hin' | ->]; [done | lia].
    - intros x Hx. pose proof (BFr1 x Hx) as Hlt.
      rewrite Hsame3 by (by (lia || apply Hsep)).
      apply Hsame2; [lia |]. intros ->. by apply (Hdisj1 l2).
    - rewrite Hsame3; [| lia |].
      + apply Hsame2; [lia |]. by intros ->.
      + intros Hin. destruct (HFv2 l1 Hin) as [Hin' | ->]; [done | lia]. }
  eexists h3, (VRef l1), _. split; [| exact Hdoc3].
  unfold script.
  rewrite (bind_inr _ _ _ _ _ Hload), (bind_inr _ _ _ _ _ Hsd1),
    (bind_inr _ _ _ _ _ Hsd2), (bind_inr _ _ _ _ _ Hrun).
  destruct m; [| done].
  by rewrite (bind_inr _ _ _ _ _ (own_py_dumps _ _ _ _ Hdoc3)).
Qed.

(** ** The script as a function on the document *)

(** What [script] does to the document tree, and which exception a
    document of the wrong shape raises: [setdefault] on something that is
    not a dict and [get] or [append] on something that lacks the method
    raise [AttributeError]; a [for] over [None], a [bool] or a number
    raises [TypeError]; a [str] or a dict in place of the list is iterated
    (characters, keys) and then fails on [get] or [append]. *)
Definition script_tree (namespace name : string) (stdout : json)
  : exn + (json * bool) :=
  match stdout with
  | JObj top =>
      match default (JObj []) (dict_get top "spec") with
      | JObj sp =>
          match default (JArr []) (dict_get sp "overrides") with
          | JArr ovs =>
              match merge_tree namespace name ovs with
              | inr (ovs', m) => inr (updated_document top sp ovs', m)
              | inl e => inl e
              end
          | JNull | JBool _ | JInt _ | JFloat _ => inl TypeError
          | JStr _ | JObj _ => inl AttributeError
          end
      | _ => inl AttributeError
      end
  | _ => inl AttributeError
  end.

Lemma py_setdefault_not_dict h F v t k d :
  own h F v t ->
  (forall members, t <> JObj members) ->
  py_setdefault v k d h = inl AttributeError.
Proof.
  intros Ho Hne.
  inversion Ho as [| | | | | l vs ts F' Hl _ _ | l items kts F' Hl _ _ _];
    subst; try done.
  - unfold py_setdefault, bind, deref. by rewrite Hl.
  - by destruct (Hne kts).
Qed.

Lemma for_override_strs namespace name overrides ks h :
  (forall x, py_append overrides x h = inl AttributeError) ->
  for_override namespace name overrides (VStr <$> ks) h = inl AttributeError.
Proof.
  intros Happ. destruct ks as [| k ks].
  - change (VStr <$> []) with (@nil val).
    rewrite for_override_nil. unfold bind. by rewrite Happ.
  - change (VStr <$> k :: ks) with (VStr k :: (VStr <$> ks)).
    by rewrite for_override_cons.
Qed.

Lemma merge_loop_not_list namespace name h F v t :
  own h F v t ->
  (forall ovs, t <> JArr ovs) ->
  merge_loop namespace name v h
  = inl match t with
        | JStr _ | JObj _ => AttributeError
        | _ => TypeError
        end.
Proof.
  intros Ho Hne. unfold merge_loop.
  inversion Ho as [| | | | | l vs ts F' Hl _ _ | l items kts F' Hl _ _ _];
    subst; try done.
  - unfold py_iter. rewrite (bind_inr _ _ _ _ _ eq_refl).
    by apply for_override_strs.
  - by destruct (Hne ts).
  - assert (py_iter (VRef l) h = inr (VStr <$> items.*1, h)) as Hit.
    { unfold py_iter, bind, deref. by rewrite Hl. }
    rewrite (bind_inr _ _ _ _ _ Hit).
    apply for_override_strs. intros x.
    unfold py_append, bind, deref. by rewrite Hl.
Qed.

(** [script] computes [script_tree]; on success [clusterversion] owns the
    resulting document and the calls are as the final [if] makes them. *)
Lemma script_eq namespace name stdout h0 :
  match script_tree namespace name stdout with
  | inl e => script namespace name stdout h0 = inl e
  | inr (d, m) =>
      exists h' v F,
        script namespace name stdout h0
        = inr (Outcome v m (if m then [OcGet; OcApply d] else [OcGet]), h') /\
        own h' F v d
  end.
Proof.
  destruct (load_own stdout h0) as (v & cells & F & Hload & Hown & _).
  set (h := h0 ++ cells) in *.
  assert (forall e, py_setdefault v "spec" (alloc (ODict [])) h = inl e ->
                    script namespace name stdout h0 = inl e) as Herr1.
  { intros e He. unfold script. rewrite (bind_inr _ _ _ _ _ Hload).
    unfold bind at 1. by rewrite He. }
  destruct stdout as [| b | z | f | s | elems | top]; simpl;
    try (by apply Herr1, (py_setdefault_not_dict _ _ _ _ _ _ Hown)).
  destruct (py_setdefault_own h F v top "spec" (ODict []) (JObj []) Hown
              own_empty_dict)
    as (h1 & c1 & l1 & Fv1 & Fr1 & Hsd1 & _ & Hc1 & _).
  assert (forall e, py_setdefault c1 "overrides" (alloc (OList [])) h1 = inl e ->
                    script namespace name (JObj top) h0 = inl e) as Herr2.
  { intros e He. unfold script.
    rewrite (bind_inr _ _ _ _ _ Hload), (bind_inr _ _ _ _ _ Hsd1).
    unfold bind at 1. by rewrite He. }
  destruct (default (JObj []) (dict_get top "spec"))
    as [| b | z | f | s | elems | sp] eqn:Hspec;
    try (by apply Herr2, (py_setdefault_not_dict _ _ _ _ _ _ Hc1)).
  destruct (py_setdefault_own h1 Fv1 c1 sp "overrides" (OList []) (JArr []) Hc1
              own_empty_list)
    as (h2 & c2 & l2 & Fv2 & Fr2 & Hsd2 & _ & Hc2 & _).
  assert (forall e, merge_loop namespace name c2 h2 = inl e ->
                    script namespace name (JObj top) h0 = inl e) as Herr3.
  { intros e He. unfold script.
    rewrite (bind_inr _ _ _ _ _ Hload), (bind_inr _ _ _ _ _ Hsd1),
      (bind_inr _ _ _ _ _ Hsd2).
    unfold bind at 1. by rewrite He. }
  destruct (default (JArr []) (dict_get sp "overrides"))
    as [| b | z | f | s | ovs | members] eqn:Hovs;
    try (by apply Herr3; rewrite (merge_loop_not_list _ _ _ _ _ _ Hc2)).
  destruct (merge_tree namespace name ovs) as [e | [ovs' m]] eqn:Hm.
  - by apply Herr3, (merge_loop_err _ _ _ _ _ _ _ Hc2).
  - by apply script_run with ovs.
Qed.

(** [main] computes [script_tree], and the document left in
    [clusterversion] is the one [script_tree] gives. *)
Lemma main_eq namespace name stdout :
  match script_tree namespace name stdout with
  | inl e => main namespace name stdout = inl e
  | inr (d, m) =>
      exists r,
        main namespace name stdout = inr r /\
        modified r.1 = m /\
        calls r.1 = (if m then [OcGet; OcApply d] else [OcGet]) /\
        document r = Some d
  end.
Proof.
  pose proof (script_eq namespace name stdout []) as H. unfold main.
  destruct (script_tree namespace name stdout) as [e | [d m]]; [done |].
  destruct H as (h' & v & F & Hrun & Hown).
  eexists. split; [exact Hrun |]. repeat split.
  unfold document. simpl. by eapply own_dump.
Qed.

(** * Properties of the merge step *)

Section Merge.

Variables namespace name : string.

(** An entry that is a JSON object. *)
Definition is_record (e : json) : bool :=
  match e with
  | JObj _ => true
  | _ => false
  end.

(** The entry has a field [k] holding exactly the string [s]. *)
Definition has_str (e : json) (k s : string) : bool :=
  match e with
  | JObj members =>
      match dict_get members k with
      | Some (JStr s') => String.eqb s' s
      | _ => false
      end
  | _ => false
  end.

(** The entry has the target's name and the target's namespace. *)
Definition is_target (e : json) : bool :=
  has_str e "name" name && has_str e "namespace" namespace.

(** The matching entries of a sequence, in order. *)
Definition targets (ovs : list json) : list json := List.filter is_target ovs.

Lemma matches_is_target members :
  matches namespace name members = is_target (JObj members).
Proof.
  unfold matches, is_target, has_str, field.
  by destruct (dict_get members "name") as [[] |],
              (dict_get members "namespace") as [[] |].
Qed.

Lemma is_target_fields members :
  is_target (JObj members) = true <->
  dict_get members "name" = Some (JStr name) /\
  dict_get members "namespace" = Some (JStr namespace).
Proof.
  unfold is_target, has_str. rewrite andb_true_iff.
  destruct (dict_get members "name") as [[] |],
           (dict_get members "namespace") as [[] |];
    try (split; [intros [? ?]; discriminate | intros [? ?]; discriminate]).
  rewrite !String.eqb_eq. split; intros [H1 H2]; split; congruence.
Qed.

Lemma is_target_set_unmanaged members x :
  is_target (JObj (dict_set members "unmanaged" x)) = is_target (JObj members).
Proof.
  unfold is_target, has_str. by rewrite !dict_get_set_ne.
Qed.

Lemma merge_tree_no_target ovs :
  forallb is_record ovs = true ->
  existsb is_target ovs = false ->
  merge_tree namespace name ovs
  = inr (ovs ++ [new_override_json namespace name], true).
Proof.
  induction ovs as [| e ovs IH]; [done |].
  simpl. intros [He Hrec]%andb_true_iff [Hne Hnone]%orb_false_iff.
  destruct e; try done.
  rewrite matches_is_target, Hne, IH by done. done.
Qed.

Lemma merge_tree_first_target pre members post :
  forallb is_record pre = true ->
  existsb is_target pre = false ->
  is_target (JObj members) = true ->
  merge_tree namespace name (pre ++ JObj members :: post)
  = inr (if json_truthy (field members "unmanaged")
         then (pre ++ JObj members :: post, false)
         else (pre ++ JObj (dict_set members "unmanaged" (JBool true)) :: post,
               true)).
Proof.
  intros Hrec Hnone Hm.
  induction pre as [| e pre IH]; simpl.
  - rewrite matches_is_target, Hm.
    by destruct (json_truthy (field members "unmanaged")).
  - simpl in Hrec, Hnone.
    apply andb_true_iff in Hrec as [He Hrec].
    apply orb_false_iff in Hnone as [Hne Hnone].
    destruct e; try done.
    rewrite matches_is_target, Hne, IH by done.
    by destruct (json_truthy (field members "unmanaged")).
Qed.

(** Every successful merge falls under one of the two lemmas above. *)
Lemma merge_tree_inr ovs ovs' m :
  merge_tree namespace name ovs = inr (ovs', m) ->
  (forallb is_record ovs = true /\ existsb is_target ovs = false /\
   ovs' = ovs ++ [new_override_json namespace name] /\ m = true) \/
  (exists pre members post,
     ovs = pre ++ JObj members :: post /\
     forallb is_record pre = true /\
     existsb is_target pre = false /\
     is_target (JObj members) = true).
Proof.
  revert ovs' m. induction ovs as [| e ovs IH]; intros ovs' m Hm.
  - left. simpl in Hm. by injection Hm as <- <-.
  - destruct e as [| | | | | | members]; try done. simpl in Hm.
    rewrite matches_is_target in Hm.
    destruct (is_target (JObj members)) eqn:Ht.
    + right. by exists [], members, ovs.
    + destruct (merge_tree namespace name ovs) as [| [r m']] eqn:Hr; [done |].
      injection Hm as <- <-.
      destruct (IH r m' eq_refl) as [(Hrec & Hnone & -> & ->) |
                                     (pre & mem & post & -> & Hrec & Hnone & Hmem)].
      * left. simpl. by rewrite Ht, Hrec.
      * right. exists (JObj members :: pre), mem, post. simpl.
        by rewrite Ht, Hrec, Hnone.
Qed.

Lemma merge_tree_total ovs :
  forallb is_record ovs = true ->
  exists r, merge_tree namespace name ovs = inr r.
Proof.
  induction ovs as [| e ovs IH]; [by eexists |].
  simpl. intros [He Hrec]%andb_true_iff. destruct e; try done.
  destruct (matches namespace name members).
  - destruct (json_truthy (field members "unmanaged")); by eexists.
  - destruct (IH Hrec) as [[r m] ->]. by eexists.
Qed.

End Merge.

(** ** Documents *)

(** The [overrides] sequence the script works on: the one under [spec],
    or the empty one that [setdefault] puts in when [spec] or [overrides]
    is missing. *)
Definition overrides_of (stdout : json) : option (list json) :=
  match stdout with
  | JObj top =>
      match default (JObj []) (dict_get top "spec") with
      | JObj sp =>
          match default (JArr []) (dict_get sp "overrides") with
          | JArr ovs => Some ovs
          | _ => None
          end
      | _ => None
      end
  | _ => None
  end.

(** A [ClusterVersion] as the data model has it: an object whose [spec],
    when present, is an object, whose [overrides], when present, is a list
    of objects. *)
Definition well_formed (stdout : json) : bool :=
  match overrides_of stdout with
  | Some ovs => forallb is_record ovs
  | None => false
  end.

Lemma script_tree_inr namespace name stdout d m :
  script_tree namespace name stdout = inr (d, m) ->
  exists top sp ovs ovs',
    stdout = JObj top /\
    default (JObj []) (dict_get top "spec") = JObj sp /\
    default (JArr []) (dict_get sp "overrides") = JArr ovs /\
    merge_tree namespace name ovs = inr (ovs', m) /\
    d = updated_document top sp ovs'.
Proof.
  unfold script_tree. intros H.
  destruct stdout as [| | | | | | top]; try done.
  destruct (default (JObj []) (dict_get top "spec")) as [| | | | | | sp] eqn:Hsp;
    try done.
  destruct (default (JArr []) (dict_get sp "overrides")) as [| | | | | ovs |] eqn:Ho;
    try done.
  destruct (merge_tree namespace name ovs) as [| [ovs' m']] eqn:Hm; [done |].
  injection H as <- <-. by exists top, sp, ovs, ovs'.
Qed.

Lemma script_tree_total namespace name stdout :
  well_formed stdout = true ->
  exists r, script_tree namespace name stdout = inr r.
Proof.
  unfold well_formed, overrides_of, script_tree.
  destruct stdout as [| | | | | | top]; try done.
  destruct (default (JObj []) (dict_get top "spec")) as [| | | | | | sp];
    try done.
  destruct (default (JArr []) (dict_get sp "overrides")) as [| | | | | ovs |];
    try done.
  intros Hrec. destruct (merge_tree_total namespace name ovs Hrec) as [[ovs' m] ->].
  by eexists.
Qed.

Lemma main_total namespace name stdout :
  well_formed stdout = true ->
  exists r, main namespace name stdout = inr r.
Proof.
  intros [[d m] Hr]%(script_tree_total namespace name).
  pose proof (main_eq namespace name stdout) as H. rewrite Hr in H.
  destruct H as (r & Hmain & _). by exists r.
Qed.

(** A run that completes is the run [script_tree] describes. *)
Lemma main_inr namespace name stdout r :
  main namespace name stdout = inr r ->
  exists top sp ovs ovs',
    stdout = JObj top /\
    default (JObj []) (dict_get top "spec") = JObj sp /\
    default (JArr []) (dict_get sp "overrides") = JArr ovs /\
    merge ovs namespace name = inr (ovs', modified r.1) /\
    document r = Some (updated_document top sp ovs') /\
    calls r.1 = (if modified r.1
                 then [OcGet; OcApply (updated_document top sp ovs')]
                 else [OcGet]).
Proof.
  intros Hmain. pose proof (main_eq namespace name stdout) as H.
  destruct (script_tree namespace name stdout) as [e | [d m]] eqn:Hs;
    [congruence |].
  destruct H as (r' & Hmain' & Hmod & Hcalls & Hdoc).
  assert (r' = r) as -> by congruence.
  destruct (script_tree_inr _ _ _ _ _ Hs)
    as (top & sp & ovs & ovs' & -> & Hsp & Hovs & Hm & ->).
  exists top, sp, ovs, ovs'. rewrite merge_eq, Hmod. by repeat split.
Qed.

Section MergeFacts.

Variables namespace name : string.

Lemma entry_matches_record members :
  entry_matches (JObj members) namespace name
  = inr (is_target namespace name (JObj members)).
Proof.
  destruct (load_own (JObj members) []) as (v & cells & F & Hload & Hown & _).
  simpl in Hload, Hown.
  destruct (own_dict_inv _ _ _ _ Hown) as (l & items & Fc & -> & _).
  unfold entry_matches.
  rewrite (bind_inr _ _ _ _ _ Hload),
    (matches_target_own _ _ _ _ _ _ Hown).
  by rewrite matches_is_target.
Qed.

Lemma is_target_new_override :
  is_target namespace name (new_override_json namespace name) = true.
Proof. unfold is_target. simpl. by rewrite !String.eqb_refl. Qed.

Lemma find_first_target pre e post :
  existsb (is_target namespace name) pre = false ->
  is_target namespace name e = true ->
  List.find (is_target namespace name) (pre ++ e :: post) = Some e.
Proof.
  intros Hnone He. induction pre as [| x pre IH]; simpl; [by rewrite He |].
  simpl in Hnone. apply orb_false_iff in Hnone as [-> Hnone]. auto.
Qed.

Lemma targets_none l :
  existsb (is_target namespace name) l = false -> targets namespace name l = [].
Proof.
  induction l as [| x l IH]; simpl; [done |].
  intros [-> Hnone]%orb_false_iff. auto.
Qed.

Lemma targets_first pre e post :
  existsb (is_target namespace name) pre = false ->
  is_target namespace name e = true ->
  targets namespace name (pre ++ e :: post) = e :: targets namespace name post.
Proof.
  intros Hnone He. unfold targets. rewrite List.filter_app. simpl.
  fold (targets namespace name pre). by rewrite targets_none, He.
Qed.

Lemma merge_total overrides :
  forallb is_record overrides = true ->
  exists r, merge overrides namespace name = inr r.
Proof. rewrite merge_eq. apply merge_tree_total. Qed.

End MergeFacts.

(** * The specification, claim by claim *)

Section Claims.

Variables namespace name : string.

(** C1.  When no entry of the sequence has both the target name and the
    target namespace, merge appends exactly one entry
    [{group: "apps/v1", kind: "Deployment", name, namespace,
    unmanaged: true}] at the end, reports a change, and leaves the entries
    that were there unchanged and in order. *)
Theorem C1_merge_appends_when_no_match (overrides : list json) :
  forallb is_record overrides = true ->
  existsb (is_target namespace name) overrides = false ->
  merge overrides namespace name
  = inr (overrides ++ [JObj [("group", JStr "apps/v1");
                             ("kind", JStr "Deployment");
                             ("name", JStr name);
                             ("namespace", JStr namespace);
                             ("unmanaged", JBool true)]],
         true).
Proof.
  intros Hrec Hnone. rewrite merge_eq. by apply merge_tree_no_target.
Qed.

(** C2.  When the first entry matching the target has an [unmanaged]
    field that is false or absent, merge sets that field to true in the
    entry, at the position where the entry was, changes nothing else in
    the entry or in the sequence, and reports a change. *)
Theorem C2_merge_flips_first_match
    (before : list json) (entry : list (string * json)) (after : list json) :
  forallb is_record before = true ->
  existsb (is_target namespace name) before = false ->
  is_target namespace name (JObj entry) = true ->
  dict_get entry "unmanaged" = None \/
  dict_get entry "unmanaged" = Some (JBool false) ->
  exists entry',
    merge (before ++ JObj entry :: after) namespace name
    = inr (before ++ JObj entry' :: after, true) /\
    entry' = dict_set entry "unmanaged" (JBool true) /\
    dict_get entry' "unmanaged" = Some (JBool true) /\
    forall k, k <> "unmanaged" -> dict_get entry' k = dict_get entry k.
Proof.
  intros Hrec Hnone Ht Hu.
  exists (dict_set entry "unmanaged" (JBool true)).
  split; [| split; [done | split]].
  - rewrite merge_eq, merge_tree_first_target by done.
    unfold field. by destruct Hu as [-> | ->].
  - apply dict_get_set.
  - intros k Hk. by apply dict_get_set_ne.
Qed.

(** C3.  When the first entry matching the target has an [unmanaged]
    field that is already truthy, merge returns the sequence it was
    given and reports no change. *)
Theorem C3_merge_keeps_unmanaged_match
    (before : list json) (entry : list (string * json)) (after : list json) :
  forallb is_record before = true ->
  existsb (is_target namespace name) before = false ->
  is_target namespace name (JObj entry) = true ->
  json_truthy (field entry "unmanaged") = true ->
  merge (before ++ JObj entry :: after) namespace name
  = inr (before ++ JObj entry :: after, false).
Proof.
  intros Hrec Hnone Ht Hu.
  by rewrite merge_eq, merge_tree_first_target, Hu.
Qed.

(** C8.  With several entries matching the target, only the first one in
    scan order is examined or modified: whatever follows it, duplicates
    included, is returned as it was. *)
Theorem C8_merge_leaves_later_duplicates
    (before : list json) (entry : list (string * json)) (after : list json) :
  forallb is_record before = true ->
  existsb (is_target namespace name) before = false ->
  is_target namespace name (JObj entry) = true ->
  exists entry' changed,
    merge (before ++ JObj entry :: after) namespace name
    = inr (before ++ JObj entry' :: after, changed) /\
    (entry' = entry \/ entry' = dict_set entry "unmanaged" (JBool true)).
Proof.
  intros Hrec Hnone Ht.
  rewrite merge_eq, merge_tree_first_target by done.
  destruct (json_truthy (field entry "unmanaged")); eauto.
Qed.

(** C5 (as the code has it).  The claim asks for exactly one matching
    entry after the merge; the loop stops at the first match and leaves
    later ones alone, so the number of matching entries is the number the
    input had, or one if it had none.  The first matching entry of the
    result has a truthy [unmanaged] field, which is [true] whenever merge
    reported a change. *)
Theorem C5_merge_result_has_unmanaged_target (overrides : list json) :
  (forallb is_record overrides = true ->
   exists r, merge overrides namespace name = inr r) /\
  (forall overrides' changed,
     merge overrides namespace name = inr (overrides', changed) ->
     exists entry,
       List.find (is_target namespace name) overrides' = Some (JObj entry) /\
       json_truthy (field entry "unmanaged") = true /\
       (changed = true -> dict_get entry "unmanaged" = Some (JBool true)) /\
       length (targets namespace name overrides')
       = Nat.max 1 (length (targets namespace name overrides))).
Proof.
  split; [apply merge_total |].
  intros ovs' m. rewrite merge_eq. intros Hm.
  destruct (merge_tree_inr _ _ _ _ _ Hm)
    as [(Hrec & Hnone & -> & ->) | (pre & entry & post & -> & Hrec & Hnone & Ht)].
  - eexists. split; [apply find_first_target, is_target_new_override; done |].
    split; [done |]. split; [done |].
    rewrite targets_first by (done || apply is_target_new_override).
    by rewrite (targets_none namespace name overrides Hnone).
  - rewrite merge_tree_first_target in Hm by done.
    rewrite (targets_first namespace name pre (JObj entry) post) by done.
    destruct (json_truthy (field entry "unmanaged")) eqn:Hu;
      injection Hm as <- <-.
    + exists entry. split; [by apply find_first_target |].
      split; [done |]. split; [done |]. by rewrite targets_first.
    + exists (dict_set entry "unmanaged" (JBool true)).
      split; [apply find_first_target; by rewrite ?is_target_set_unmanaged |].
      split; [unfold field; by rewrite dict_get_set |].
      split; [intros _; apply dict_get_set |].
      rewrite targets_first by (by rewrite ?is_target_set_unmanaged). done.
Qed.

(** C6.  Merge is idempotent: merging again with the same target returns
    the sequence the first merge returned, and reports no change. *)
Theorem C6_merge_idempotent (overrides : list json) :
  (forallb is_record overrides = true ->
   exists r, merge overrides namespace name = inr r) /\
  (forall overrides' changed,
     merge overrides namespace name = inr (overrides', changed) ->
     merge overrides' namespace name = inr (overrides', false)).
Proof.
  split; [apply merge_total |].
  intros ovs' m. rewrite !merge_eq. intros Hm.
  destruct (merge_tree_inr _ _ _ _ _ Hm)
    as [(Hrec & Hnone & -> & ->) | (pre & entry & post & -> & Hrec & Hnone & Ht)].
  - unfold new_override_json.
    by rewrite merge_tree_first_target
      by (done || apply is_target_new_override).
  - rewrite merge_tree_first_target in Hm by done.
    destruct (json_truthy (field entry "unmanaged")) eqn:Hu;
      injection Hm as <- <-.
    + by rewrite merge_tree_first_target, Hu.
    + rewrite merge_tree_first_target
        by (by rewrite ?is_target_set_unmanaged).
      unfold field. by rewrite dict_get_set.
Qed.

(** C7.  The match is exact equality of both strings at once.  On an entry
    that is an object the test never raises, and holds exactly when the
    [name] field is the target name and the [namespace] field is the target
    namespace; an entry that differs in either, or lacks either, does not
    match, and a sequence of such entries gets the new entry appended. *)
Theorem C7_match_needs_both_fields :
  (forall entry,
     exists b,
       entry_matches (JObj entry) namespace name = inr b /\
       (b = true <->
        dict_get entry "name" = Some (JStr name) /\
        dict_get entry "namespace" = Some (JStr namespace))) /\
  (forall overrides,
     forallb is_record overrides = true ->
     forallb (fun e => negb (has_str e "name" name)
                       || negb (has_str e "namespace" namespace)) overrides
     = true ->
     merge overrides namespace name
     = inr (overrides ++ [new_override_json namespace name], true)).
Proof.
  split.
  - intros entry. exists (is_target namespace name (JObj entry)).
    split; [apply entry_matches_record | apply is_target_fields].
  - intros ovs Hrec Hpart. rewrite merge_eq.
    apply merge_tree_no_target; [done |].
    clear Hrec. induction ovs as [| e ovs IH]; [done |].
    simpl in Hpart |- *. apply andb_true_iff in Hpart as [He Hpart].
    rewrite IH by done. unfold is_target.
    by destruct (has_str e "name" name), (has_str e "namespace" namespace).
Qed.

(** C4.  The apply is made exactly when the merge reported a change: a
    run that ends with [modified] false has made no call but the initial
    [oc get]; a run that ends with [modified] true has made one [oc apply],
    whose input is the whole updated document: the input document with
    [spec.overrides] replaced by the sequence merge returned, which is also
    what [clusterversion] then holds.  [modified] is what merge reports on
    the document's overrides. *)
Theorem C4_apply_iff_modified (stdout : json) :
  (well_formed stdout = true ->
   exists r, main namespace name stdout = inr r) /\
  (forall r,
     main namespace name stdout = inr r ->
     exists top sp overrides overrides' d,
       stdout = JObj top /\
       default (JObj []) (dict_get top "spec") = JObj sp /\
       overrides_of stdout = Some overrides /\
       merge overrides namespace name = inr (overrides', modified r.1) /\
       d = JObj (dict_set top "spec"
                   (JObj (dict_set sp "overrides" (JArr overrides')))) /\
       overrides_of d = Some overrides' /\
       document r = Some d /\
       if modified r.1
       then calls r.1 = [OcGet; OcApply d]
       else calls r.1 = [OcGet]).
Proof.
  split; [apply main_total |].
  intros r (top & sp & ovs & ovs' & -> & Hsp & Hovs & Hm & Hdoc & Hcalls)%main_inr.
  exists top, sp, ovs, ovs', (updated_document top sp ovs').
  split; [done |]. split; [done |].
  split; [unfold overrides_of; by rewrite Hsp, Hovs |].
  split; [done |]. split; [done |].
  split.
  { unfold overrides_of, updated_document. rewrite dict_get_set. simpl.
    by rewrite dict_get_set. }
  split; [done |]. by destruct (modified r.1).
Qed.

(** C9.  A document without [spec], or whose [spec] has no [overrides],
    does not make the script fail: the missing part is put in, the new
    entry is appended to the empty list, and the document is applied. *)
Theorem C9_missing_spec_or_overrides (top : list (string * json)) :
  (dict_get top "spec" = None ->
   let d := JObj (top ++ [("spec",
                           JObj [("overrides",
                                  JArr [new_override_json namespace name])])]) in
   exists r,
     main namespace name (JObj top) = inr r /\
     modified r.1 = true /\
     document r = Some d /\
     calls r.1 = [OcGet; OcApply d]) /\
  (forall sp,
     dict_get top "spec" = Some (JObj sp) ->
     dict_get sp "overrides" = None ->
     let d := JObj (dict_set top "spec"
                      (JObj (sp ++ [("overrides",
                                     JArr [new_override_json namespace name])]))) in
     exists r,
       main namespace name (JObj top) = inr r /\
       modified r.1 = true /\
       document r = Some d /\
       calls r.1 = [OcGet; OcApply d]).
Proof.
  split.
  - intros Hspec d.
    pose proof (main_eq namespace name (JObj top)) as H.
    unfold script_tree in H. rewrite Hspec in H. simpl in H.
    unfold updated_document in H. simpl in H.
    rewrite (dict_set_missing top "spec" _ Hspec) in H.
    destruct H as (r & Hmain & Hmod & Hcalls & Hdoc). by exists r.
  - intros sp Hspec Hovs d.
    pose proof (main_eq namespace name (JObj top)) as H.
    unfold script_tree in H. rewrite Hspec in H. simpl in H.
    rewrite Hovs in H. simpl in H.
    unfold updated_document in H.
    rewrite (dict_set_missing sp "overrides" _ Hovs) in H.
    destruct H as (r & Hmain & Hmod & Hcalls & Hdoc). by exists r.
Qed.

(** C10.  Whatever the run, the document left in [clusterversion], which
    is the one applied when something changed, is the input with
    [spec.overrides] replaced by what merge returns: every top-level field
    other than [spec] and every field of [spec] other than [overrides] has
    the value and the position it had; [spec] and [overrides] are added
    last when they were missing. *)
Theorem C10_rest_of_document_preserved (stdout : json) :
  (well_formed stdout = true ->
   exists r, main namespace name stdout = inr r) /\
  (forall r,
     main namespace name stdout = inr r ->
     exists top sp top' sp' overrides',
       stdout = JObj top /\
       default (JObj []) (dict_get top "spec") = JObj sp /\
       document r = Some (JObj top') /\
       top' = dict_set top "spec" (JObj sp') /\
       sp' = dict_set sp "overrides" (JArr overrides') /\
       (forall k, k <> "spec" -> dict_get top' k = dict_get top k) /\
       (forall k, k <> "overrides" -> dict_get sp' k = dict_get sp k) /\
       (exists overrides,
          overrides_of stdout = Some overrides /\
          merge overrides namespace name = inr (overrides', modified r.1)) /\
       (modified r.1 = true -> calls r.1 = [OcGet; OcApply (JObj top')])).
Proof.
  split; [apply main_total |].
  intros r (top & sp & ovs & ovs' & -> & Hsp & Hovs & Hm & Hdoc & Hcalls)%main_inr.
  exists top, sp, (dict_set top "spec" (JObj (dict_set sp "overrides" (JArr ovs')))),
    (dict_set sp "overrides" (JArr ovs')), ovs'.
  split; [done |]. split; [done |]. split; [done |]. split; [done |].
  split; [done |].
  split; [intros k Hk; by apply dict_get_set_ne |].
  split; [intros k Hk; by apply dict_get_set_ne |].
  split.
  - exists ovs. unfold overrides_of. by rewrite Hsp, Hovs.
  - intros Hmod. by rewrite Hmod in Hcalls.
Qed.

End Claims.

(** * The claims at concrete inputs *)

Definition foo_bar (unmanaged : list (string * json)) : json :=
  JObj ([("group", JStr "apps/v1"); ("kind", JStr "Deployment");
         ("name", JStr "bar"); ("namespace", JStr "openshift-foo")]
        ++ unmanaged).

Definition foo_baz : json :=
  JObj [("name", JStr "baz"); ("namespace", JStr "openshift-foo");
        ("unmanaged", JBool true)].

Definition other_bar : json :=
  JObj [("name", JStr "bar"); ("namespace", JStr "openshift-other")].

Definition cv (spec : list (string * json)) : json :=
  JObj [("apiVersion", JStr "config.openshift.io/v1");
        ("kind", JStr "ClusterVersion");
        ("spec", JObj spec);
        ("status", JObj [("desired", JObj [("version", JStr "4.9.0")])])].

Lemma C1_witness :
  merge [foo_baz; other_bar] "openshift-foo" "bar"
  = inr ([foo_baz; other_bar; foo_bar [("unmanaged", JBool true)]], true).
Proof.
  apply (C1_merge_appends_when_no_match "openshift-foo" "bar" [foo_baz; other_bar]);
    reflexivity.
Defined.

Lemma C2_witness :
  exists entry',
    merge ([foo_baz] ++ foo_bar [("unmanaged", JBool false)] :: [foo_bar []])
      "openshift-foo" "bar"
    = inr ([foo_baz] ++ JObj entry' :: [foo_bar []], true) /\
    entry' = [("group", JStr "apps/v1"); ("kind", JStr "Deployment");
              ("name", JStr "bar"); ("namespace", JStr "openshift-foo");
              ("unmanaged", JBool true)] /\
    dict_get entry' "unmanaged" = Some (JBool true) /\
    forall k, k <> "unmanaged" ->
      dict_get entry' k
      = dict_get [("group", JStr "apps/v1"); ("kind", JStr "Deployment");
                  ("name", JStr "bar"); ("namespace", JStr "openshift-foo");
                  ("unmanaged", JBool false)] k.
Proof.
  apply (C2_merge_flips_first_match "openshift-foo" "bar" [foo_baz]
           [("group", JStr "apps/v1"); ("kind", JStr "Deployment");
            ("name", JStr "bar"); ("namespace", JStr "openshift-foo");
            ("unmanaged", JBool false)]
           [foo_bar []]);
    [reflexivity | reflexivity | reflexivity | right; reflexivity].
Defined.

Lemma C3_witness :
  merge ([other_bar] ++ foo_bar [("unmanaged", JBool true)] :: [foo_baz])
    "openshift-foo" "bar"
  = inr ([other_bar] ++ foo_bar [("unmanaged", JBool true)] :: [foo_baz], false).
Proof.
  apply (C3_merge_keeps_unmanaged_match "openshift-foo" "bar" [other_bar]
           [("group", JStr "apps/v1"); ("kind", JStr "Deployment");
            ("name", JStr "bar"); ("namespace", JStr "openshift-foo");
            ("unmanaged", JBool true)]
           [foo_baz]);
    reflexivity.
Defined.

(** The duplicates of the counterexample to C5: the first one is already
    unmanaged, the second one is not. *)
Definition duplicates : list json :=
  [foo_bar [("unmanaged", JBool true)]; foo_bar [("unmanaged", JBool false)]].

(** C5 as the claim states it fails on [duplicates]: merge changes
    nothing, and the result has two entries matching the target, one of
    them with [unmanaged] false. *)
Lemma C5_counterexample :
  merge duplicates "openshift-foo" "bar" = inr (duplicates, false) /\
  length (targets "openshift-foo" "bar" duplicates) <> 1 /\
  targets "openshift-foo" "bar" duplicates !! 1
  = Some (foo_bar [("unmanaged", JBool false)]).
Proof. vm_compute. split; [reflexivity | split; [discriminate | reflexivity]]. Qed.

Lemma C5_witness :
  (exists r, merge duplicates "openshift-foo" "bar" = inr r) /\
  exists entry,
    List.find (is_target "openshift-foo" "bar") duplicates = Some (JObj entry) /\
    json_truthy (field entry "unmanaged") = true /\
    (false = true -> dict_get entry "unmanaged" = Some (JBool true)) /\
    length (targets "openshift-foo" "bar" duplicates)
    = Nat.max 1 (length (targets "openshift-foo" "bar" duplicates)).
Proof.
  split.
  - apply (proj1 (C5_merge_result_has_unmanaged_target
                    "openshift-foo" "bar" duplicates)).
    reflexivity.
  - apply (proj2 (C5_merge_result_has_unmanaged_target
                    "openshift-foo" "bar" duplicates) duplicates false).
    vm_compute. reflexivity.
Defined.

Lemma C6_witness :
  (exists r, merge [foo_baz; foo_bar []] "openshift-foo" "bar" = inr r) /\
  merge [foo_baz; foo_bar [("unmanaged", JBool true)]] "openshift-foo" "bar"
  = inr ([foo_baz; foo_bar [("unmanaged", JBool true)]], false).
Proof.
  split.
  - apply (proj1 (C6_merge_idempotent "openshift-foo" "bar"
                    [foo_baz; foo_bar []])).
    reflexivity.
  - apply (proj2 (C6_merge_idempotent "openshift-foo" "bar"
                    [foo_baz; foo_bar []])
             [foo_baz; foo_bar [("unmanaged", JBool true)]] true).
    vm_compute. reflexivity.
Defined.

Lemma C7_witness :
  merge [other_bar; foo_baz; JObj [("namespace", JStr "openshift-foo")];
         JObj [("name", JStr "Bar"); ("namespace", JStr "openshift-foo")]]
    "openshift-foo" "bar"
  = inr ([other_bar; foo_baz; JObj [("namespace", JStr "openshift-foo")];
          JObj [("name", JStr "Bar"); ("namespace", JStr "openshift-foo")]]
         ++ [new_override_json "openshift-foo" "bar"], true).
Proof.
  apply (proj2 (C7_match_needs_both_fields "openshift-foo" "bar")); reflexivity.
Defined.

Lemma C8_witness :
  exists entry' changed,
    merge ([foo_baz] ++ foo_bar [] :: [foo_bar []; JNull; foo_bar []])
      "openshift-foo" "bar"
    = inr ([foo_baz] ++ JObj entry' :: [foo_bar []; JNull; foo_bar []], changed) /\
    (entry' = [("group", JStr "apps/v1"); ("kind", JStr "Deployment");
               ("name", JStr "bar"); ("namespace", JStr "openshift-foo")] \/
     entry' = dict_set [("group", JStr "apps/v1"); ("kind", JStr "Deployment");
                        ("name", JStr "bar"); ("namespace", JStr "openshift-foo")]
                "unmanaged" (JBool true)).
Proof.
  apply (C8_merge_leaves_later_duplicates "openshift-foo" "bar" [foo_baz]
           [("group", JStr "apps/v1"); ("kind", JStr "Deployment");
            ("name", JStr "bar"); ("namespace", JStr "openshift-foo")]
           [foo_bar []; JNull; foo_bar []]);
    reflexivity.
Defined.

Lemma C4_witness :
  (exists r,
     main "openshift-foo" "bar" (cv [("overrides", JArr [foo_bar []])]) = inr r) /\
  exists r,
    main "openshift-foo" "bar" (cv [("overrides", JArr [foo_bar []])]) = inr r /\
    exists top sp overrides overrides' d,
      cv [("overrides", JArr [foo_bar []])] = JObj top /\
      default (JObj []) (dict_get top "spec") = JObj sp /\
      overrides_of (cv [("overrides", JArr [foo_bar []])]) = Some overrides /\
      merge overrides "openshift-foo" "bar" = inr (overrides', modified r.1) /\
      d = JObj (dict_set top "spec"
                  (JObj (dict_set sp "overrides" (JArr overrides')))) /\
      overrides_of d = Some overrides' /\
      document r = Some d /\
      if modified r.1
      then calls r.1 = [OcGet; OcApply d]
      else calls r.1 = [OcGet].
Proof.
  split.
  - apply (proj1 (C4_apply_iff_modified "openshift-foo" "bar" _)). reflexivity.
  - eexists. split; [vm_compute; reflexivity |].
    apply (proj2 (C4_apply_iff_modified "openshift-foo" "bar" _)).
    vm_compute. reflexivity.
Defined.

Lemma C9_witness :
  (exists r,
     main "openshift-foo" "bar" (JObj [("kind", JStr "ClusterVersion")]) = inr r /\
     modified r.1 = true /\
     document r
     = Some (JObj [("kind", JStr "ClusterVersion");
                   ("spec",
                    JObj [("overrides",
                           JArr [new_override_json "openshift-foo" "bar"])])]) /\
     calls r.1
     = [OcGet;
        OcApply (JObj [("kind", JStr "ClusterVersion");
                       ("spec",
                        JObj [("overrides",
                               JArr [new_override_json "openshift-foo" "bar"])])])]) /\
  (exists r,
     main "openshift-foo" "bar" (cv [("channel", JStr "stable-4.9")]) = inr r /\
     modified r.1 = true /\
     document r
     = Some (cv [("channel", JStr "stable-4.9");
                 ("overrides", JArr [new_override_json "openshift-foo" "bar"])]) /\
     calls r.1
     = [OcGet;
        OcApply (cv [("channel", JStr "stable-4.9");
                     ("overrides",
                      JArr [new_override_json "openshift-foo" "bar"])])]).
Proof.
  split.
  - apply (proj1 (C9_missing_spec_or_overrides "openshift-foo" "bar"
                    [("kind", JStr "ClusterVersion")])).
    reflexivity.
  - apply (proj2 (C9_missing_spec_or_overrides "openshift-foo" "bar"
                    [("apiVersion", JStr "config.openshift.io/v1");
                     ("kind", JStr "ClusterVersion");
                     ("spec", JObj [("channel", JStr "stable-4.9")]);
                     ("status",
                      JObj [("desired", JObj [("version", JStr "4.9.0")])])])
             [("channel", JStr "stable-4.9")]);
      reflexivity.
Defined.

Lemma C10_witness :
  (exists r,
     main "openshift-foo" "bar"
       (cv [("channel", JStr "stable-4.9"); ("overrides", JArr [foo_baz])])
     = inr r) /\
  exists r,
    main "openshift-foo" "bar"
      (cv [("channel", JStr "stable-4.9"); ("overrides", JArr [foo_baz])])
    = inr r /\
    exists top sp top' sp' overrides',
      cv [("channel", JStr "stable-4.9"); ("overrides", JArr [foo_baz])]
      = JObj top /\
      default (JObj []) (dict_get top "spec") = JObj sp /\
      document r = Some (JObj top') /\
      top' = dict_set top "spec" (JObj sp') /\
      sp' = dict_set sp "overrides" (JArr overrides') /\
      (forall k, k <> "spec" -> dict_get top' k = dict_get top k) /\
      (forall k, k <> "overrides" -> dict_get sp' k = dict_get sp k) /\
      (exists overrides,
         overrides_of
           (cv [("channel", JStr "stable-4.9"); ("overrides", JArr [foo_baz])])
         = Some overrides /\
         merge overrides "openshift-foo" "bar" = inr (overrides', modified r.1)) /\
      (modified r.1 = true -> calls r.1 = [OcGet; OcApply (JObj top')]).
Proof.
  split.
  - apply (proj1 (C10_rest_of_document_preserved "openshift-foo" "bar" _)).
    reflexivity.
  - eexists. split; [vm_compute; reflexivity |].
    apply (proj2 (C10_rest_of_document_preserved "openshift-foo" "bar" _)).
    vm_compute. reflexivity.
Defined.

(** * Further properties of the script *)

(** ** More about [merge_tree] *)

Section MoreMergeFacts.

Variables namespace name : string.

(** The merge step fails only on an entry that is not an object, met
    before any entry matched. *)
Lemma merge_tree_inl ovs e :
  merge_tree namespace name ovs = inl e <->
  e = AttributeError /\
  exists before bad after,
    ovs = before ++ bad :: after /\
    forallb is_record before = true /\
    existsb (is_target namespace name) before = false /\
    is_record bad = false.
Proof.
  split.
  - revert e. induction ovs as [| x ovs IH]; intros e He; [done |].
    destruct x as [| b | z | f | s | elems | members];
      try (simpl in He; injection He as <-; split; [done |];
           by eexists [], _, ovs).
    simpl in He. rewrite matches_is_target in He.
    destruct (is_target namespace name (JObj members)) eqn:Ht.
    { by destruct (json_truthy (field members "unmanaged")). }
    destruct (merge_tree namespace name ovs) as [e' | [r m]]; [| done].
    injection He as <-.
    destruct (IH e' eq_refl) as (-> & before & bad & after & -> & Hrec & Hnone & Hbad).
    split; [done |]. exists (JObj members :: before), bad, after.
    simpl. by rewrite Ht, Hrec, Hnone.
  - intros (-> & before & bad & after & -> & Hrec & Hnone & Hbad).
    induction before as [| x before IH]; simpl.
    + by destruct bad.
    + simpl in Hrec, Hnone.
      apply andb_true_iff in Hrec as [Hx Hrec].
      apply orb_false_iff in Hnone as [Hnx Hnone].
      destruct x; try done.
      by rewrite matches_is_target, Hnx, IH.
Qed.

Lemma merge_tree_idem ovs ovs' m :
  merge_tree namespace name ovs = inr (ovs', m) ->
  merge_tree namespace name ovs' = inr (ovs', false).
Proof.
  intros Hm.
  destruct (merge_tree_inr _ _ _ _ _ Hm)
    as [(Hrec & Hnone & -> & ->) | (pre & entry & post & -> & Hrec & Hnone & Ht)].
  - unfold new_override_json.
    by rewrite merge_tree_first_target
      by (done || apply is_target_new_override).
  - rewrite merge_tree_first_target in Hm by done.
    destruct (json_truthy (field entry "unmanaged")) eqn:Hu;
      injection Hm as <- <-.
    + by rewrite merge_tree_first_target, Hu.
    + rewrite merge_tree_first_target
        by (by rewrite ?is_target_set_unmanaged).
      unfold field. by rewrite dict_get_set.
Qed.

Lemma merge_tree_has_target ovs ovs' m :
  merge_tree namespace name ovs = inr (ovs', m) ->
  exists entry,
    List.find (is_target namespace name) ovs' = Some (JObj entry) /\
    json_truthy (field entry "unmanaged") = true.
Proof.
  intros Hm.
  destruct (merge_tree_inr _ _ _ _ _ Hm)
    as [(Hrec & Hnone & -> & ->) | (pre & entry & post & -> & Hrec & Hnone & Ht)].
  - eexists. split; [apply find_first_target, is_target_new_override; done |].
    done.
  - rewrite merge_tree_first_target in Hm by done.
    destruct (json_truthy (field entry "unmanaged")) eqn:Hu;
      injection Hm as <- <-.
    + exists entry. split; [by apply find_first_target | done].
    + exists (dict_set entry "unmanaged" (JBool true)).
      split; [apply find_first_target; by rewrite ?is_target_set_unmanaged |].
      unfold field. by rewrite dict_get_set.
Qed.

(** Setting a falsy field to [true] changes the entry. *)
Lemma dict_set_true_changes entry k :
  json_truthy (field entry k) = false ->
  dict_set entry k (JBool true) <> entry.
Proof.
  intros Hu Heq. pose proof (dict_get_set entry k (JBool true)) as Hg.
  rewrite Heq in Hg. unfold field in Hu. by rewrite Hg in Hu.
Qed.

(** [modified] is false exactly when the sequence is returned as it was. *)
Lemma merge_tree_changed ovs ovs' m :
  merge_tree namespace name ovs = inr (ovs', m) ->
  (m = false <-> ovs' = ovs).
Proof.
  intros Hm.
  destruct (merge_tree_inr _ _ _ _ _ Hm)
    as [(Hrec & Hnone & -> & ->) | (pre & entry & post & -> & Hrec & Hnone & Ht)].
  - split; [done |]. intros Heq. apply (f_equal length) in Heq.
    rewrite length_app in Heq. simpl in Heq. lia.
  - rewrite merge_tree_first_target in Hm by done.
    destruct (json_truthy (field entry "unmanaged")) eqn:Hu;
      injection Hm as <- <-; [done |].
    split; [done |]. intros Heq. apply app_inv_head in Heq.
    injection Heq as Heq. by apply dict_set_true_changes in Heq.
Qed.

Lemma merge_tree_unchanged ovs ovs' :
  merge_tree namespace name ovs = inr (ovs', false) ->
  ovs' = ovs /\ ovs <> [].
Proof.
  intros Hm. split; [by apply (merge_tree_changed _ _ _ Hm) |].
  intros ->. simpl in Hm. by injection Hm.
Qed.

(** An entry matches at most one target. *)
Lemma is_target_exclusive namespace' name' entry :
  namespace' <> namespace \/ name' <> name ->
  is_target namespace name (JObj entry) = true ->
  is_target namespace' name' (JObj entry) = false.
Proof.
  intros Hother [Hn Hns]%is_target_fields.
  destruct (is_target namespace' name' (JObj entry)) eqn:Ht'; [| done].
  apply is_target_fields in Ht' as [Hn' Hns']. rewrite Hn in Hn'.
  rewrite Hns in Hns'. destruct Hother; congruence.
Qed.

Lemma merge_tree_other_targets namespace' name' ovs ovs' m :
  namespace' <> namespace \/ name' <> name ->
  merge_tree namespace name ovs = inr (ovs', m) ->
  targets namespace' name' ovs' = targets namespace' name' ovs.
Proof.
  intros Hother Hm. unfold targets.
  destruct (merge_tree_inr _ _ _ _ _ Hm)
    as [(Hrec & Hnone & -> & ->) | (pre & entry & post & -> & Hrec & Hnone & Ht)].
  - rewrite List.filter_app. cbn [List.filter].
    unfold new_override_json in *.
    rewrite (is_target_exclusive _ _ _ Hother (is_target_new_override namespace name)).
    by rewrite app_nil_r.
  - rewrite merge_tree_first_target in Hm by done.
    destruct (json_truthy (field entry "unmanaged")); injection Hm as <- <-;
      [done |].
    rewrite !List.filter_app. cbn [List.filter].
    rewrite (is_target_exclusive _ _ entry Hother Ht).
    by rewrite (is_target_exclusive _ _ (dict_set entry "unmanaged" (JBool true)) Hother)
      by (by rewrite is_target_set_unmanaged).
Qed.

Lemma merge_tree_records ovs ovs' m :
  merge_tree namespace name ovs = inr (ovs', m) ->
  forallb is_record ovs = true ->
  forallb is_record ovs' = true.
Proof.
  intros Hm Hrec.
  destruct (merge_tree_inr _ _ _ _ _ Hm)
    as [(_ & Hnone & -> & ->) | (pre & entry & post & -> & Hpre & Hnone & Ht)].
  - by rewrite forallb_app, Hrec.
  - rewrite merge_tree_first_target in Hm by done.
    destruct (json_truthy (field entry "unmanaged")); injection Hm as <- <-;
      [done |].
    rewrite forallb_app in Hrec |- *.
    apply andb_true_iff in Hrec as [-> Hpost]. simpl in Hpost |- *. done.
Qed.

End MoreMergeFacts.

(** ** The merge step: errors, falsy values, what is left alone *)

(** The values of [unmanaged] that [not override.get('unmanaged')] takes
    for "not unmanaged": [None] (also a missing field), [False], [0],
    [0.0] and [-0.0], the empty string, list and dict. *)
Definition falsy_values : list json :=
  [JNull; JBool false; JInt 0; JFloat (S754_zero false); JFloat (S754_zero true);
   JStr ""; JArr []; JObj []].

Lemma json_truthy_falsy t : json_truthy t = false <-> In t falsy_values.
Proof.
  unfold falsy_values. simpl. split.
  - destruct t as [| [] | z | [[] | | |] | [] | [] | []]; try done; simpl; auto 10.
    destruct z; try done. auto.
  - intros H. repeat (destruct H as [<- | H]; [done |]). done.
Qed.

Section MergeExtras.

Variables namespace name : string.

(** X1.  The merge step raises only [AttributeError], and does so exactly
    when an entry that is not an object comes before any matching entry
    (an entry after the first match is never looked at). *)
Theorem X1_merge_raises_on_non_object (overrides : list json) (e : exn) :
  merge overrides namespace name = inl e <->
  e = AttributeError /\
  exists before bad after,
    overrides = before ++ bad :: after /\
    forallb is_record before = true /\
    existsb (is_target namespace name) before = false /\
    is_record bad = false.
Proof. rewrite merge_eq. apply merge_tree_inl. Qed.

(** X2.  On the first matching entry, an [unmanaged] field that is
    missing or holds any falsy value ([null], [false], [0], [0.0], [""],
    [[]], [{}]) is set to [true]; any other value, such as [1] or the
    string ["false"], counts as already unmanaged and is left as it is. *)
Theorem X2_merge_unmanaged_truthiness
    (before : list json) (entry : list (string * json)) (after : list json) :
  forallb is_record before = true ->
  existsb (is_target namespace name) before = false ->
  is_target namespace name (JObj entry) = true ->
  (In (field entry "unmanaged") falsy_values ->
   merge (before ++ JObj entry :: after) namespace name
   = inr (before ++ JObj (dict_set entry "unmanaged" (JBool true)) :: after,
          true)) /\
  (~ In (field entry "unmanaged") falsy_values ->
   merge (before ++ JObj entry :: after) namespace name
   = inr (before ++ JObj entry :: after, false)).
Proof.
  intros Hrec Hnone Ht.
  rewrite merge_eq, merge_tree_first_target by done.
  split.
  - intros Hf%json_truthy_falsy. by rewrite Hf.
  - intros Hf. destruct (json_truthy (field entry "unmanaged")) eqn:Hu; [done |].
    by apply json_truthy_falsy in Hu.
Qed.

(** X3.  The flag merge reports is accurate: it is false exactly when the
    sequence returned is the sequence given. *)
Theorem X3_merge_changed_iff_differs
    (overrides overrides' : list json) (changed : bool) :
  merge overrides namespace name = inr (overrides', changed) ->
  (changed = false <-> overrides' = overrides).
Proof. rewrite merge_eq. apply merge_tree_changed. Qed.

(** X4.  Merge never drops or moves an entry: the result is as long as the
    input or one longer, and every entry is where it was, unchanged, except
    possibly the first matching one, which then differs only by
    [unmanaged] having been set to [true]. *)
Theorem X4_merge_keeps_entries
    (overrides overrides' : list json) (changed : bool) :
  merge overrides namespace name = inr (overrides', changed) ->
  (length overrides' = length overrides \/
   length overrides' = S (length overrides)) /\
  forall i e,
    overrides !! i = Some e ->
    overrides' !! i = Some e \/
    (existsb (is_target namespace name) (take i overrides) = false /\
     is_target namespace name e = true /\
     exists entry,
       e = JObj entry /\
       overrides' !! i = Some (JObj (dict_set entry "unmanaged" (JBool true)))).
Proof.
  rewrite merge_eq. intros Hm.
  destruct (merge_tree_inr _ _ _ _ _ Hm)
    as [(Hrec & Hnone & -> & ->) | (pre & entry & post & -> & Hrec & Hnone & Ht)].
  - split; [right; rewrite length_app; simpl; lia |].
    intros i e Hi. left. by apply lookup_app_l_Some.
  - rewrite merge_tree_first_target in Hm by done.
    destruct (json_truthy (field entry "unmanaged")); injection Hm as <- <-.
    { split; [by left | by left]. }
    split; [left; rewrite !length_app; simpl; lia |].
    intros i e Hi.
    destruct (decide (i = length pre)) as [-> | Hne].
    + right. rewrite list_lookup_middle in Hi by done. injection Hi as <-.
      rewrite take_app_length. split; [done |]. split; [done |].
      exists entry. split; [done |]. by apply list_lookup_middle.
    + left. rewrite <- (insert_middle pre post (JObj entry)).
      by rewrite list_lookup_insert_ne.
Qed.

(** X5.  Merging for one target leaves the entries of every other target
    as they are: unmanaging one Deployment never touches the override of
    another. *)
Theorem X5_merge_leaves_other_targets
    (namespace' name' : string)
    (overrides overrides' : list json) (changed : bool) :
  namespace' <> namespace \/ name' <> name ->
  merge overrides namespace name = inr (overrides', changed) ->
  targets namespace' name' overrides' = targets namespace' name' overrides.
Proof.
  intros Hother. rewrite merge_eq. by apply merge_tree_other_targets.
Qed.

End MergeExtras.

(** ** The subprocess calls as effects *)

(** The script once more, with each [subprocess.run] recorded at the
    point where it is made, so that a run that raises still tells which
    calls came before the exception.  A computation takes the calls made
    so far and the store; the calls survive an exception, the store does
    not. *)
Definition T (A : Type) : Type :=
  list call -> heap -> list call * (exn + (A * heap)).

Definition tret {A} (a : A) : T A := fun log h => (log, inr (a, h)).

Definition tbind {A B} (c : T A) (k : A -> T B) : T B :=
  fun log h => match c log h with
               | (log', inl e) => (log', inl e)
               | (log', inr (a, h')) => k a log' h'
               end.

(** A computation on the store makes no call. *)
Definition lift {A} (c : M A) : T A := fun log h => (log, c h).

(** [subprocess.run] without [check=True]: the call is made and its exit
    status is ignored. *)
Definition subprocess_run (c : call) : T unit :=
  fun log h => (log ++ [c], inr (tt, h)).

Declare Scope call_scope.
Delimit Scope call_scope with call.
Notation "x <- c ;; k" := (tbind c (fun x => k))
  (at level 100, c at next level, right associativity) : call_scope.
Notation "c ;;; k" := (tbind c (fun _ => k))
  (at level 100, right associativity) : call_scope.

(** Lines 11 to 37 in order: [oc get], [json.loads], the two
    [setdefault]s, the loop, and under [if modified] first [json.dumps]
    (the argument) and then [oc apply].  The result is [clusterversion]
    and [modified]. *)
Definition script_calls (namespace name : string) (stdout : json)
  : T (val * bool) :=
  (subprocess_run OcGet ;;;
   clusterversion <- lift (load stdout) ;;
   spec <- lift (py_setdefault clusterversion "spec" (alloc (ODict []))) ;;
   overrides <- lift (py_setdefault spec "overrides" (alloc (OList []))) ;;
   modified <- lift (merge_loop namespace name overrides) ;;
   if (modified : bool) then
     input <- lift (py_dumps clusterversion) ;;
     subprocess_run (OcApply input) ;;;
     tret (clusterversion, modified)
   else
     tret (clusterversion, modified))%call.

(** The calls made and the way the run ends, from no call and an empty
    store. *)
Definition main_calls (namespace name : string) (stdout : json)
  : list call * (exn + (val * bool * heap)) :=
  script_calls namespace name stdout [] [].

(** [main_calls] and [main] are the same run: the same exception or the
    same variables and store; the calls of a completed run are those
    [main] reports, and a run that raises has made the [oc get] only. *)
Lemma main_calls_eq namespace name stdout :
  main_calls namespace name stdout
  = match main namespace name stdout with
    | inl e => ([OcGet], inl e)
    | inr (out, h) => (calls out, inr (clusterversion out, modified out, h))
    end.
Proof.
  unfold main_calls, script_calls, main, script, tbind, lift, subprocess_run,
    tret, bind, ret.
  simpl.
  destruct (load stdout []) as [e | [cv h1]]; [done |].
  destruct (py_setdefault cv "spec" (alloc (ODict [])) h1) as [e | [sp h2]];
    [done |].
  destruct (py_setdefault sp "overrides" (alloc (OList [])) h2) as [e | [ov h3]];
    [done |].
  destruct (merge_loop namespace name ov h3) as [e | [[] h4]]; [done | | done].
  by destruct (py_dumps cv h4) as [e | [input h5]].
Qed.

(** ** The whole script: failures *)

Section ScriptFailures.

Variables namespace name : string.

(** X6.  A document that is not an object, or whose [spec] is present but
    not an object ([null] included), makes [setdefault] raise
    [AttributeError]; the only call made is the initial [oc get], nothing
    is applied. *)
Theorem X6_script_rejects_non_object_document (stdout : json) :
  (is_record stdout = false ->
   main namespace name stdout = inl AttributeError /\
   main_calls namespace name stdout = ([OcGet], inl AttributeError)) /\
  (forall top v,
     stdout = JObj top ->
     dict_get top "spec" = Some v ->
     is_record v = false ->
     main namespace name stdout = inl AttributeError /\
     main_calls namespace name stdout = ([OcGet], inl AttributeError)).
Proof.
  assert (main namespace name stdout = inl AttributeError ->
          main namespace name stdout = inl AttributeError /\
          main_calls namespace name stdout = ([OcGet], inl AttributeError))
    as Hcalls.
  { intros Hmain. split; [done |]. by rewrite main_calls_eq, Hmain. }
  pose proof (main_eq namespace name stdout) as H.
  split.
  - intros Hrec. apply Hcalls. by destruct stdout.
  - intros top v -> Hv Hrec. apply Hcalls.
    unfold script_tree in H. rewrite Hv in H. by destruct v.
Qed.

(** X7.  An [overrides] that is present but not a list stops the script:
    [null], a boolean or a number cannot be iterated ([TypeError]); a
    string or an object can, but then [get] or [append] is missing
    ([AttributeError]). *)
Theorem X7_script_rejects_non_list_overrides
    (top sp : list (string * json)) (v : json) :
  default (JObj []) (dict_get top "spec") = JObj sp ->
  dict_get sp "overrides" = Some v ->
  (forall elems, v <> JArr elems) ->
  main namespace name (JObj top)
  = inl match v with
        | JStr _ | JObj _ => AttributeError
        | _ => TypeError
        end.
Proof.
  intros Hsp Hv Hne.
  pose proof (main_eq namespace name (JObj top)) as H.
  unfold script_tree in H. rewrite Hsp, Hv in H. simpl in H.
  destruct v; try done. by destruct (Hne elems).
Qed.

(** X8.  When the merge step raises on the document's overrides, the
    script ends with that exception, having made the initial [oc get] and
    no [oc apply]. *)
Theorem X8_script_fails_with_merge
    (stdout : json) (overrides : list json) (e : exn) :
  overrides_of stdout = Some overrides ->
  merge overrides namespace name = inl e ->
  main namespace name stdout = inl e /\
  main_calls namespace name stdout = ([OcGet], inl e).
Proof.
  intros Hovs. rewrite merge_eq. intros He.
  assert (main namespace name stdout = inl e) as Hmain.
  { pose proof (main_eq namespace name stdout) as H.
    unfold overrides_of in Hovs. unfold script_tree in H.
    destruct stdout as [| | | | | | top]; try done.
    destruct (default (JObj []) (dict_get top "spec")) as [| | | | | | sp];
      try done.
    destruct (default (JArr []) (dict_get sp "overrides")) as [| | | | | ovs |];
      try done.
    injection Hovs as ->. by rewrite He in H. }
  split; [done |]. by rewrite main_calls_eq, Hmain.
Qed.

(** X9.  The only exceptions the script can end with are [AttributeError]
    and [TypeError]: [json.dumps] never meets a circular reference in the
    document, whatever the script did to it. *)
Theorem X9_script_raises_only_attribute_or_type_error (stdout : json) (e : exn) :
  main namespace name stdout = inl e ->
  e = AttributeError \/ e = TypeError.
Proof.
  intros Hmain. pose proof (main_eq namespace name stdout) as H.
  destruct (script_tree namespace name stdout) as [e' | [d m]] eqn:Hs.
  - assert (e' = e) as -> by congruence. clear H Hmain.
    unfold script_tree in Hs.
    destruct stdout as [| | | | | | top]; try (injection Hs as <-; auto).
    destruct (default (JObj []) (dict_get top "spec")) as [| | | | | | sp];
      try (injection Hs as <-; auto).
    destruct (default (JArr []) (dict_get sp "overrides")) as [| | | | | ovs |];
      try (injection Hs as <-; auto).
    destruct (merge_tree namespace name ovs) as [e' | [ovs' m]] eqn:Hm; [| done].
    injection Hs as <-. apply merge_tree_inl in Hm as [-> _]. auto.
  - destruct H as (r & Hr & _). congruence.
Qed.

End ScriptFailures.

(** ** The whole script: completed runs *)

Lemma dict_set_set {A} (items : list (string * A)) k x y :
  dict_set (dict_set items k x) k y = dict_set items k y.
Proof.
  induction items as [| [k' v] items IH]; simpl.
  - by rewrite String.eqb_refl.
  - destruct (String.eqb k' k) eqn:Hk; simpl.
    + by rewrite String.eqb_refl.
    + by rewrite Hk, IH.
Qed.

Lemma overrides_of_updated top sp ovs' :
  overrides_of (updated_document top sp ovs') = Some ovs'.
Proof.
  unfold overrides_of, updated_document. rewrite dict_get_set. simpl.
  by rewrite dict_get_set.
Qed.

Lemma find_head_targets namespace name ovs :
  List.find (is_target namespace name) ovs = head (targets namespace name ovs).
Proof.
  unfold targets. induction ovs as [| e ovs IH]; simpl; [done |].
  by destruct (is_target namespace name e).
Qed.

Section ScriptRuns.

Variables namespace name : string.

(** X10.  A run that ends with [modified] false has only read: the
    document in [clusterversion] is the one [oc get] gave, with nothing put
    in by [setdefault], and no [oc apply] was made. *)
Theorem X10_unmodified_run_leaves_document (stdout : json) (r : outcome * heap) :
  main namespace name stdout = inr r ->
  modified r.1 = false ->
  document r = Some stdout /\ calls r.1 = [OcGet].
Proof.
  intros (top & sp & ovs & ovs' & -> & Hsp & Hovs & Hm & Hdoc & Hcalls)%main_inr
    Hmod.
  rewrite Hmod in Hm, Hcalls. split; [| done].
  rewrite merge_eq in Hm. apply merge_tree_unchanged in Hm as [-> Hne].
  rewrite Hdoc. unfold updated_document.
  destruct (dict_get sp "overrides") as [v |] eqn:Hgo; simpl in Hovs;
    [subst v | by injection Hovs as <-].
  destruct (dict_get top "spec") as [v |] eqn:Hgs; simpl in Hsp;
    [subst v | injection Hsp as <-; done].
  by rewrite (dict_set_same sp), (dict_set_same top).
Qed.

(** X11.  Running the script again on the document it has produced
    changes nothing: the second run reports no modification, makes no
    [oc apply], and holds the same document. *)
Theorem X11_script_idempotent (stdout d : json) (r : outcome * heap) :
  main namespace name stdout = inr r ->
  document r = Some d ->
  exists r',
    main namespace name d = inr r' /\
    modified r'.1 = false /\
    calls r'.1 = [OcGet] /\
    document r' = Some d.
Proof.
  intros (top & sp & ovs & ovs' & -> & Hsp & Hovs & Hm & Hdoc & Hcalls)%main_inr
    Hd.
  rewrite Hdoc in Hd. injection Hd as <-.
  rewrite merge_eq in Hm. apply merge_tree_idem in Hm.
  pose proof (main_eq namespace name (updated_document top sp ovs')) as H.
  unfold script_tree, updated_document in H.
  rewrite dict_get_set in H. simpl in H. rewrite dict_get_set in H. simpl in H.
  rewrite Hm in H. unfold updated_document in H.
  rewrite !dict_set_set in H.
  destruct H as (r' & Hmain & Hmod & Hc & Hdoc'). by exists r'.
Qed.

(** X12.  What the tool is for: after any completed run, [spec.overrides]
    of the document holds an entry with the target's name and namespace,
    and the first such entry has a truthy [unmanaged]. *)
Theorem X12_completed_run_unmanages_target (stdout : json) (r : outcome * heap) :
  main namespace name stdout = inr r ->
  exists d overrides' entry,
    document r = Some d /\
    overrides_of d = Some overrides' /\
    List.find (is_target namespace name) overrides' = Some (JObj entry) /\
    json_truthy (field entry "unmanaged") = true.
Proof.
  intros (top & sp & ovs & ovs' & -> & Hsp & Hovs & Hm & Hdoc & Hcalls)%main_inr.
  rewrite merge_eq in Hm.
  destruct (merge_tree_has_target _ _ _ _ _ Hm) as (entry & Hfind & Hu).
  exists (updated_document top sp ovs'), ovs', entry.
  split; [done |]. split; [apply overrides_of_updated | done].
Qed.

(** X15.  A completed run keeps the document well formed (an object
    whose [spec] is an object whose [overrides] is a list of objects), so
    the script can be run on it again, for any target. *)
Theorem X15_completed_run_keeps_well_formed
    (stdout d : json) (r : outcome * heap) :
  well_formed stdout = true ->
  main namespace name stdout = inr r ->
  document r = Some d ->
  well_formed d = true.
Proof.
  intros Hwf
    (top & sp & ovs & ovs' & -> & Hsp & Hovs & Hm & Hdoc & Hcalls)%main_inr Hd.
  rewrite Hdoc in Hd. injection Hd as <-.
  unfold well_formed in *. rewrite overrides_of_updated.
  unfold overrides_of in Hwf. rewrite Hsp, Hovs in Hwf.
  rewrite merge_eq in Hm. by eapply merge_tree_records.
Qed.

(** X16.  Running the script for one target and then, on the document it
    produced, for another target leaves both unmanaged: the second run does
    not undo the first. *)
Theorem X16_second_target_keeps_first
    (namespace' name' : string) (stdout d1 : json) (r1 r2 : outcome * heap) :
  namespace' <> namespace \/ name' <> name ->
  main namespace name stdout = inr r1 ->
  document r1 = Some d1 ->
  main namespace' name' d1 = inr r2 ->
  exists d2 overrides2 entry entry',
    document r2 = Some d2 /\
    overrides_of d2 = Some overrides2 /\
    List.find (is_target namespace name) overrides2 = Some (JObj entry) /\
    json_truthy (field entry "unmanaged") = true /\
    List.find (is_target namespace' name') overrides2 = Some (JObj entry') /\
    json_truthy (field entry' "unmanaged") = true.
Proof.
  intros Hother
    (top & sp & ovs & o1 & -> & Hsp & Hovs & Hm1 & Hdoc1 & _)%main_inr Hd1
    (top2 & sp2 & ovs2 & o2 & Hd & Hsp2 & Hovs2 & Hm2 & Hdoc2 & _)%main_inr.
  rewrite Hdoc1 in Hd1. injection Hd1 as <-.
  assert (ovs2 = o1) as ->.
  { pose proof (overrides_of_updated top sp o1) as Ho. rewrite Hd in Ho.
    unfold overrides_of in Ho. rewrite Hsp2, Hovs2 in Ho. by injection Ho. }
  rewrite merge_eq in Hm1, Hm2.
  destruct (merge_tree_has_target _ _ _ _ _ Hm1) as (entry & Hfind & Hu).
  destruct (merge_tree_has_target _ _ _ _ _ Hm2) as (entry' & Hfind' & Hu').
  exists (updated_document top2 sp2 o2), o2, entry, entry'.
  split; [done |]. split; [apply overrides_of_updated |].
  split; [| done].
  rewrite find_head_targets,
    (merge_tree_other_targets namespace' name' namespace name o1 o2 _)
    by (done || destruct Hother; auto).
  by rewrite <- find_head_targets.
Qed.

End ScriptRuns.

(** ** The store *)

(** X13.  [json.dumps] undoes [json.loads]: a tree built in any store is
    read back as the same tree, and building it only adds objects. *)
Theorem X13_dumps_after_loads (t : json) (h : heap) :
  exists cells, (v <- load t ;; py_dumps v) h = inr (t, h ++ cells).
Proof.
  destruct (load_own t h) as (v & cells & F & Hload & Hown & _).
  exists cells.
  by rewrite (bind_inr _ _ _ _ _ Hload), (own_py_dumps _ _ _ _ Hown).
Qed.

(** X14.  The loop works on the overrides list only: in a store where
    [overrides] owns its tree with footprint [F], a completed loop has
    freed or changed no object outside [F], whatever else the store
    holds. *)
Theorem X14_merge_loop_frame
    (namespace name : string) (h h' : heap) (F : gset loc)
    (overrides : val) (ovs : list json) (changed : bool) :
  own h F overrides (JArr ovs) ->
  merge_loop namespace name overrides h = inr (changed, h') ->
  length h <= length h' /\
  forall l, l < length h -> l ∉ F -> h' !! l = h !! l.
Proof.
  intros Hown Hrun.
  destruct (merge_tree namespace name ovs) as [e | [ovs' m]] eqn:Hm.
  - by rewrite (merge_loop_err _ _ _ _ _ _ _ Hown Hm) in Hrun.
  - destruct (merge_loop_tree _ _ _ _ _ _ _ _ Hown Hm)
      as (h1 & F1 & Hrun1 & _ & Hlen & _ & Hsame).
    rewrite Hrun1 in Hrun. injection Hrun as <- <-. done.
Qed.

(** ** The further properties at concrete inputs *)

Lemma X1_witness :
  merge [foo_baz; JNull; foo_bar []] "openshift-foo" "bar" = inl AttributeError.
Proof.
  apply (proj2 (X1_merge_raises_on_non_object "openshift-foo" "bar"
                  [foo_baz; JNull; foo_bar []] AttributeError)).
  split; [reflexivity |].
  exists [foo_baz], JNull, [foo_bar []]. repeat split.
Defined.

Lemma X2_witness :
  merge ([foo_baz] ++ foo_bar [("unmanaged", JInt 0)] :: [])
    "openshift-foo" "bar"
  = inr ([foo_baz] ++ foo_bar [("unmanaged", JBool true)] :: [], true) /\
  merge ([foo_baz] ++ foo_bar [("unmanaged", JStr "false")] :: [])
    "openshift-foo" "bar"
  = inr ([foo_baz] ++ foo_bar [("unmanaged", JStr "false")] :: [], false).
Proof.
  split.
  - apply (proj1 (X2_merge_unmanaged_truthiness "openshift-foo" "bar" [foo_baz]
                    [("group", JStr "apps/v1"); ("kind", JStr "Deployment");
                     ("name", JStr "bar"); ("namespace", JStr "openshift-foo");
                     ("unmanaged", JInt 0)] []
                    eq_refl eq_refl eq_refl)).
    simpl. auto.
  - apply (proj2 (X2_merge_unmanaged_truthiness "openshift-foo" "bar" [foo_baz]
                    [("group", JStr "apps/v1"); ("kind", JStr "Deployment");
                     ("name", JStr "bar"); ("namespace", JStr "openshift-foo");
                     ("unmanaged", JStr "false")] []
                    eq_refl eq_refl eq_refl)).
    simpl. intros H. repeat (destruct H as [H | H]; [discriminate H |]).
    exact H.
Defined.

Lemma X3_witness :
  true = false <->
  [foo_baz; foo_bar [("unmanaged", JBool true)]] = [foo_baz; foo_bar []].
Proof.
  apply (X3_merge_changed_iff_differs "openshift-foo" "bar"
           [foo_baz; foo_bar []]).
  vm_compute. reflexivity.
Defined.

Lemma X4_witness :
  (length [foo_baz; foo_bar [("unmanaged", JBool true)]]
   = length [foo_baz; foo_bar []] \/
   length [foo_baz; foo_bar [("unmanaged", JBool true)]]
   = S (length [foo_baz; foo_bar []])) /\
  forall i e,
    [foo_baz; foo_bar []] !! i = Some e ->
    [foo_baz; foo_bar [("unmanaged", JBool true)]] !! i = Some e \/
    (existsb (is_target "openshift-foo" "bar") (take i [foo_baz; foo_bar []])
     = false /\
     is_target "openshift-foo" "bar" e = true /\
     exists entry,
       e = JObj entry /\
       [foo_baz; foo_bar [("unmanaged", JBool true)]] !! i
       = Some (JObj (dict_set entry "unmanaged" (JBool true)))).
Proof.
  apply (X4_merge_keeps_entries "openshift-foo" "bar" [foo_baz; foo_bar []]
           [foo_baz; foo_bar [("unmanaged", JBool true)]] true).
  vm_compute. reflexivity.
Defined.

Lemma X5_witness :
  targets "openshift-foo" "baz"
    [foo_baz; foo_bar [("unmanaged", JBool true)]]
  = targets "openshift-foo" "baz" [foo_baz; foo_bar []].
Proof.
  apply (X5_merge_leaves_other_targets "openshift-foo" "bar"
           "openshift-foo" "baz" [foo_baz; foo_bar []]
           [foo_baz; foo_bar [("unmanaged", JBool true)]] true).
  - right. discriminate.
  - vm_compute. reflexivity.
Defined.

Lemma X6_witness :
  (main "openshift-foo" "bar" (JArr []) = inl AttributeError /\
   main_calls "openshift-foo" "bar" (JArr []) = ([OcGet], inl AttributeError)) /\
  (main "openshift-foo" "bar" (JObj [("spec", JNull)]) = inl AttributeError /\
   main_calls "openshift-foo" "bar" (JObj [("spec", JNull)])
   = ([OcGet], inl AttributeError)).
Proof.
  split.
  - apply (proj1 (X6_script_rejects_non_object_document
                    "openshift-foo" "bar" (JArr []))).
    reflexivity.
  - apply (proj2 (X6_script_rejects_non_object_document
                    "openshift-foo" "bar" (JObj [("spec", JNull)]))
             [("spec", JNull)] JNull);
      reflexivity.
Defined.

Lemma X7_witness :
  main "openshift-foo" "bar"
    (JObj [("spec", JObj [("overrides", JNull)])]) = inl TypeError.
Proof.
  apply (X7_script_rejects_non_list_overrides "openshift-foo" "bar"
           [("spec", JObj [("overrides", JNull)])] [("overrides", JNull)] JNull);
    [reflexivity | reflexivity | discriminate].
Defined.

Lemma X8_witness :
  main "openshift-foo" "bar" (cv [("overrides", JArr [foo_baz; JStr "bar"])])
  = inl AttributeError /\
  main_calls "openshift-foo" "bar"
    (cv [("overrides", JArr [foo_baz; JStr "bar"])])
  = ([OcGet], inl AttributeError).
Proof.
  apply (X8_script_fails_with_merge "openshift-foo" "bar"
           (cv [("overrides", JArr [foo_baz; JStr "bar"])])
           [foo_baz; JStr "bar"] AttributeError);
    vm_compute; reflexivity.
Defined.

Lemma X9_witness : TypeError = AttributeError \/ TypeError = TypeError.
Proof.
  apply (X9_script_raises_only_attribute_or_type_error "openshift-foo" "bar"
           (cv [("overrides", JInt 3)]) TypeError).
  vm_compute. reflexivity.
Defined.

Lemma X10_witness :
  exists r,
    main "openshift-foo" "bar"
      (cv [("overrides", JArr [foo_bar [("unmanaged", JBool true)]])]) = inr r /\
    document r
    = Some (cv [("overrides", JArr [foo_bar [("unmanaged", JBool true)]])]) /\
    calls r.1 = [OcGet].
Proof.
  eexists. split; [vm_compute; reflexivity |].
  apply (X10_unmodified_run_leaves_document "openshift-foo" "bar");
    vm_compute; reflexivity.
Defined.

Lemma X11_witness :
  exists r',
    main "openshift-foo" "bar"
      (cv [("overrides", JArr [foo_bar [("unmanaged", JBool true)]])]) = inr r' /\
    modified r'.1 = false /\
    calls r'.1 = [OcGet] /\
    document r'
    = Some (cv [("overrides", JArr [foo_bar [("unmanaged", JBool true)]])]).
Proof.
  destruct (main "openshift-foo" "bar" (cv [("overrides", JArr [foo_bar []])]))
    as [e | r] eqn:Hr; [vm_compute in Hr; discriminate Hr |].
  apply (X11_script_idempotent "openshift-foo" "bar"
           (cv [("overrides", JArr [foo_bar []])]) _ r Hr).
  vm_compute in Hr. injection Hr as <-. vm_compute. reflexivity.
Defined.

Lemma X12_witness :
  exists r,
    main "openshift-foo" "bar" (JObj []) = inr r /\
    exists d overrides' entry,
      document r = Some d /\
      overrides_of d = Some overrides' /\
      List.find (is_target "openshift-foo" "bar") overrides' = Some (JObj entry) /\
      json_truthy (field entry "unmanaged") = true.
Proof.
  eexists. split; [vm_compute; reflexivity |].
  apply (X12_completed_run_unmanages_target "openshift-foo" "bar" (JObj [])).
  vm_compute. reflexivity.
Defined.

Lemma X14_witness :
  length [ODict []; OList []]
  <= length [ODict []; OList [VRef 2];
             new_override "openshift-foo" "bar"] /\
  forall l, l < length [ODict []; OList []] -> l ∉ ({[1]} : gset loc) ->
    [ODict []; OList [VRef 2]; new_override "openshift-foo" "bar"] !! l
    = [ODict []; OList []] !! l.
Proof.
  apply (X14_merge_loop_frame "openshift-foo" "bar" [ODict []; OList []]
           _ {[1]} (VRef 1) [] true).
  - apply own_empty_list. reflexivity.
  - vm_compute. reflexivity.
Defined.

Lemma X15_witness :
  well_formed
    (cv [("overrides", JArr [foo_baz; foo_bar [("unmanaged", JBool true)]])])
  = true.
Proof.
  destruct (main "openshift-foo" "bar" (cv [("overrides", JArr [foo_baz])]))
    as [e | r] eqn:Hr; [vm_compute in Hr; discriminate Hr |].
  apply (X15_completed_run_keeps_well_formed "openshift-foo" "bar"
           (cv [("overrides", JArr [foo_baz])]) _ r eq_refl Hr).
  vm_compute in Hr. injection Hr as <-. vm_compute. reflexivity.
Defined.

Lemma X16_witness :
  exists r1 r2,
    main "openshift-foo" "bar" (cv []) = inr r1 /\
    main "openshift-foo" "baz"
      (cv [("overrides", JArr [foo_bar [("unmanaged", JBool true)]])]) = inr r2 /\
    exists d2 overrides2 entry entry',
      document r2 = Some d2 /\
      overrides_of d2 = Some overrides2 /\
      List.find (is_target "openshift-foo" "bar") overrides2 = Some (JObj entry) /\
      json_truthy (field entry "unmanaged") = true /\
      List.find (is_target "openshift-foo" "baz") overrides2 = Some (JObj entry') /\
      json_truthy (field entry' "unmanaged") = true.
Proof.
  eexists _, _. split; [vm_compute; reflexivity |].
  split; [vm_compute; reflexivity |].
  eapply (X16_second_target_keeps_first "openshift-foo" "bar"
            "openshift-foo" "baz" (cv [])
           (cv [("overrides", JArr [foo_bar [("unmanaged", JBool true)]])])).
  - right. discriminate.
  - vm_compute. reflexivity.
  - vm_compute. reflexivity.
  - vm_compute. reflexivity.
Defined.
